(** * Equity forward IPV check: carry vs put-call parity

    A shallow embedding of [equity_forward_ipv.py] and the properties of its
    validator, pricer, evaluator and reporter.

    Numbers.  The program computes on Python floats.  They are modelled here
    as real numbers: [math.exp] is [exp], [math.log] is [ln] on its domain,
    and [round(v, n)] rounds to [n] decimals, ties to even.  Operations that
    can raise in Python ([/] on a zero divisor, [math.log] outside its
    domain, [abs] of [None]) return in an error monad.  Overflow, underflow
    and NaN of the binary64 format are outside this model: the real [exp] is
    never zero and never overflows, and a quotient of positive reals is never
    zero, where [math.exp] returns [0.0] below about -745, raises
    [OverflowError] above about 709.78, and a binary64 quotient can
    underflow to [0.0].  A result [Ok] of the model therefore says what the
    program returns when its float operations stay in range; it does not say
    that the program cannot raise on inputs that leave that range. *)

From Stdlib Require Import Reals Lra Lia ZArith Bool List String Ascii.
Import ListNotations.

Local Open Scope R_scope.

(** ** Exceptions and the error monad *)

Inductive exn : Type :=
| ValueError (msg : string)
| ZeroDivisionError
| TypeError.

Inductive result (A : Type) : Type :=
| Ok (a : A)
| Raise (e : exn).

Arguments Ok {A} a.
Arguments Raise {A} e.

Definition bind {A B : Type} (m : result A) (k : A -> result B) : result B :=
  match m with
  | Ok a => k a
  | Raise e => Raise e
  end.

Notation "x <- m ;; k" := (bind m (fun x => k))
  (at level 61, m at next level, right associativity).
Notation "m ;;; k" := (bind m (fun _ => k))
  (at level 61, right associativity).

(** ** Python's float operations, on reals *)

Definition fle (a b : R) : bool := if Rle_dec a b then true else false.
Definition flt (a b : R) : bool := if Rlt_dec a b then true else false.
Definition fge (a b : R) : bool := fle b a.

(** [a / b] raises [ZeroDivisionError] on a zero divisor. *)
Definition fdiv (a b : R) : result R :=
  if Req_dec_T b 0 then Raise ZeroDivisionError else Ok (a / b).

(** [math.log] raises [ValueError] outside the positive reals. *)
Definition math_log (a : R) : result R :=
  if Rle_dec a 0 then Raise (ValueError "math domain error") else Ok (ln a).

Definition math_exp (a : R) : R := exp a.

(** [max(a, b)]: the first argument unless the second is greater. *)
Definition py_max (a b : R) : R := if Rlt_dec a b then b else a.

(** [abs] of a possibly absent float: [abs(None)] is a [TypeError]. *)
Definition py_abs (v : option R) : result R :=
  match v with
  | Some a => Ok (Rabs a)
  | None => Raise TypeError
  end.

(** Nearest integer, ties to the even one. *)
Definition round_half_even (y : R) : Z :=
  let f := Int_part y in
  let d := y - IZR f in
  if Rlt_dec d (1 / 2) then f
  else if Rlt_dec (1 / 2) d then (f + 1)%Z
  else if Z.even f then f else (f + 1)%Z.

(** [round(v, n)]: [n] decimals, ties to even; [n] may be negative. *)
Definition py_round (v : R) (n : Z) : R :=
  IZR (round_half_even (v * powerRZ 10 n)) / powerRZ 10 n.

(** ** Inputs *)

Record EquityForwardIPVInputs : Type := {
  spot : R;
  r : R;
  net_carry : R;
  T : R;
  strike : R;
  call : option R;
  put : option R
}.

Definition is_None {A : Type} (o : option A) : bool :=
  match o with None => true | Some _ => false end.

(** [v is not None and v < 0] *)
Definition present_and_negative (o : option R) : bool :=
  match o with Some v => flt v 0 | None => false end.

(** ** Validation *)

Definition validate_inputs (x : EquityForwardIPVInputs) : result unit :=
  if fle x.(spot) 0 then Raise (ValueError "spot must be > 0")
  else if fle x.(strike) 0 then Raise (ValueError "strike must be > 0")
  else if fle x.(T) 0 then Raise (ValueError "T must be > 0")
  else if present_and_negative x.(call) then Raise (ValueError "call must be >= 0")
  else if present_and_negative x.(put) then Raise (ValueError "put must be >= 0")
  else if xorb (is_None x.(call)) (is_None x.(put)) then
    Raise (ValueError "provide both call and put (same K,T), or neither")
  else Ok tt.

(** ** Core formulas (continuous compounding) *)

Definition forward_carry (spot r net_carry T : R) : R :=
  spot * math_exp ((r - net_carry) * T).

Definition forward_from_put_call_parity (K C P r T : R) : R :=
  K + math_exp (r * T) * (C - P).

Definition implied_net_carry (spot F_target r T : R) : result (option R) :=
  if fle spot 0 || fle T 0 || fle F_target 0 then Ok None
  else
    ratio <- fdiv F_target spot ;;
    l <- math_log ratio ;;
    q <- fdiv l T ;;
    Ok (Some (r - q)).

(** ** The report *)

Record Tolerances : Type := {
  tol_abs : option R;
  tol_bps : option R;
  tol_eff : option R;
  tol_q_gap_bps : option R
}.

Record Report : Type := {
  status : string;
  pass_rule : string;
  baseline_forward : option R;
  market_implied_forward : option R;
  abs_spread : option R;
  rel_spread_bps_vs_fbase : option R;
  rel_spread_bps_vs_spot : option R;
  net_carry_input : R;
  net_carry_input_pct : R;
  net_carry_implied : option R;
  net_carry_implied_pct : option R;
  net_carry_gap_bps : option R;
  pass_eff : option bool;
  tolerances : Tolerances;
  root_cause_hints : list string;
  assumptions : list (string * string)
}.

Definition status_na : string := "N/A (no options provided)".
Definition status_pass : string := "PASS".
Definition status_fail : string := "FAIL".

Definition pass_rule_text : string :=
  "|ΔF| <= tol_eff (tol_eff = max(tol_abs, tol_bps * F_carry / 10000))".

Definition hint_timestamp : string := "Timestamp alignment (spot vs options).".
Definition hint_conventions : string := "Conventions (T, day count, compounding, curve).".
Definition hint_lower : string :=
  "Market-implied forward LOWER: check higher dividends / higher borrow-repo / stale spot.".
Definition hint_higher : string :=
  "Market-implied forward HIGHER: check lower dividends / lower borrow-repo / stale options.".
Definition hint_carry_mismatch : string := "Dividends / repo-borrow (net carry mismatch).".
Definition hint_carry_unavailable : string :=
  "Implied net carry not available (invalid inputs or F<=0).".
Definition hint_settlement : string :=
  "Settlement & corporate actions (ex-div, specials, splits).".
Definition hint_bid_ask : string := "Bid/ask consistency (mid vs executable, stale quotes).".

(** [hints.append(h)] *)
Definition append (hints : list string) (h : string) : list string := hints ++ [h].

(** ** IPV engine *)

(** Lines 129-146 of [run_ipv_check]: the hint list, built by appending. *)
Definition build_hints (status : string) (abs_spread : R) (q_impl q_gap_bps : option R)
    (tol_q_gap_bps : R) : result (list string) :=
  let hints := [] in
  if String.eqb status "FAIL" then
    let hints := append hints hint_timestamp in
    let hints := append hints hint_conventions in
    let hints :=
      if flt abs_spread 0 then append hints hint_lower
      else append hints hint_higher in
    hints <-
      match q_impl with
      | Some _ =>
          g <- py_abs q_gap_bps ;;
          Ok (if fge g tol_q_gap_bps then append hints hint_carry_mismatch else hints)
      | None => Ok (append hints hint_carry_unavailable)
      end ;;
    let hints := append hints hint_settlement in
    let hints := append hints hint_bid_ask in
    Ok hints
  else Ok hints.

(** [{**t, "tol_eff": v}]: the tolerances with [tol_eff] overwritten. *)
Definition with_tol_eff (t : Tolerances) (v : R) : Tolerances :=
  {| tol_abs := t.(tol_abs);
     tol_bps := t.(tol_bps);
     tol_eff := Some v;
     tol_q_gap_bps := t.(tol_q_gap_bps) |}.

(** The report as first built (lines 81-106), before any option price is used. *)
Definition initial_report (x : EquityForwardIPVInputs) (f_baseline : R)
    (tol_abs tol_bps tol_q_gap_bps : R) (rounding : Z) : Report :=
  {| status := status_na;
     pass_rule := pass_rule_text;
     baseline_forward := Some (py_round f_baseline rounding);
     market_implied_forward := None;
     abs_spread := None;
     rel_spread_bps_vs_fbase := None;
     rel_spread_bps_vs_spot := None;
     net_carry_input := x.(net_carry);
     net_carry_input_pct := py_round (x.(net_carry) * 100) 3;
     net_carry_implied := None;
     net_carry_implied_pct := None;
     net_carry_gap_bps := None;
     pass_eff := None;
     tolerances :=
       {| tol_abs := Some tol_abs;
          tol_bps := Some tol_bps;
          tol_eff := None;
          tol_q_gap_bps := Some tol_q_gap_bps |};
     root_cause_hints := [];
     assumptions :=
       [("compounding", "continuous");
        ("net_carry", "dividend_yield - repo/borrow")]%string |}.

Definition run_ipv_check (x : EquityForwardIPVInputs)
    (tol_abs tol_bps tol_q_gap_bps : R) (rounding : Z) : result Report :=
  validate_inputs x ;;;
  let f_baseline := forward_carry x.(spot) x.(r) x.(net_carry) x.(T) in
  let report := initial_report x f_baseline tol_abs tol_bps tol_q_gap_bps rounding in
  match x.(call) with
  | None => Ok report
  | Some c =>
    match x.(put) with
    | None => Raise TypeError
    | Some p =>
      let f_mkt := forward_from_put_call_parity x.(strike) c p x.(r) x.(T) in
      let abs_spread_ := f_mkt - f_baseline in
      d1 <- fdiv abs_spread_ f_baseline ;;
      let rel_bps_fbase := d1 * 10000 in
      d2 <- fdiv abs_spread_ x.(spot) ;;
      let rel_bps_spot := d2 * 10000 in
      d3 <- fdiv (Rabs tol_bps * f_baseline) 10000 ;;
      let tol_eff_ := py_max tol_abs d3 in
      let pass_eff_ := fle (Rabs abs_spread_) tol_eff_ in
      let status_ := if pass_eff_ then status_pass else status_fail in
      q_impl <- implied_net_carry x.(spot) f_mkt x.(r) x.(T) ;;
      let q_gap_bps :=
        match q_impl with
        | Some q => Some ((q - x.(net_carry)) * 10000)
        | None => None
        end in
      hints <- build_hints status_ abs_spread_ q_impl q_gap_bps tol_q_gap_bps ;;
      Ok {| status := status_;
            pass_rule := report.(pass_rule);
            baseline_forward := Some (py_round f_baseline rounding);
            market_implied_forward := Some (py_round f_mkt rounding);
            abs_spread := Some (py_round abs_spread_ rounding);
            rel_spread_bps_vs_fbase := Some (py_round rel_bps_fbase 2);
            rel_spread_bps_vs_spot := Some (py_round rel_bps_spot 2);
            net_carry_input := report.(net_carry_input);
            net_carry_input_pct := report.(net_carry_input_pct);
            net_carry_implied := q_impl;
            net_carry_implied_pct :=
              match q_impl with
              | Some q => Some (py_round (q * 100) 3)
              | None => None
              end;
            net_carry_gap_bps :=
              match q_gap_bps with
              | Some g => Some (py_round g 1)
              | None => None
              end;
            pass_eff := Some pass_eff_;
            tolerances := with_tol_eff report.(tolerances) tol_eff_;
            root_cause_hints := hints;
            assumptions := report.(assumptions) |}
    end
  end.

(** The defaults of [run_ipv_check]'s keyword arguments. *)
Definition default_tol_abs : R := 0.20.
Definition default_tol_bps : R := 5.0.
Definition default_tol_q_gap_bps : R := 50.0.
Definition default_rounding : Z := 6.

(** ** Output formatting *)

Definition newline : string := String (ascii_of_nat 10) EmptyString.

(** [s * n] *)
Fixpoint repeat_string (s : string) (n : nat) : string :=
  match n with
  | O => EmptyString
  | S n' => (s ++ repeat_string s n')%string
  end.

(** Truth value of a string and of a list. *)
Definition str_truthy (s : string) : bool :=
  match s with EmptyString => false | _ => true end.

Definition list_truthy {A : Type} (l : list A) : bool :=
  match l with [] => false | _ => true end.

(** [hints[:max(0, top_hints)]] *)
Definition slice_to {A : Type} (l : list A) (top_hints : Z) : list A :=
  firstn (Z.to_nat (Z.max 0 top_hints)) l.

Section Reporter.

Local Open Scope string_scope.

(** Python's float formatting: [fmt_fixed v nd] is [f"{v:.{nd}f}"] and
    [str_float v] is [f"{v}"]. *)
Variable fmt_fixed : R -> nat -> string.
Variable str_float : R -> string.

Definition fmt_num (v : option R) (nd : nat) : string :=
  match v with
  | None => "N/A"
  | Some v => fmt_fixed v nd
  end.

(** Lines 177-218 of [format_ipv_report]: everything above the hints. *)
Definition header_lines (rep : Report) : list string :=
  let t := rep.(tolerances) in
  let tol_eff := t.(tol_eff) in
  let tol_abs := t.(tol_abs) in
  let tol_bps := t.(tol_bps) in
  let lines := [] in
  let lines := append lines (repeat_string "=" 40) in
  let lines := append lines " EQUITY FORWARD IPV REPORT" in
  let lines := append lines (repeat_string "=" 40) in
  let lines := append lines ("STATUS            : " ++ rep.(status)) in
  let rule := rep.(pass_rule) in
  let lines :=
    if str_truthy rule then append lines ("Rule              : " ++ rule)
    else lines in
  let lines := append lines "" in
  let lines :=
    append lines ("F_baseline (carry): " ++ fmt_num rep.(baseline_forward) 3) in
  let lines :=
    append lines ("F_implied (parity): " ++ fmt_num rep.(market_implied_forward) 3) in
  let lines := append lines "" in
  let tol_str :=
    match tol_abs, tol_bps, tol_eff with
    | Some a, Some b, Some e =>
        "tol_abs: " ++ str_float a ++ ", tol_bps: " ++ str_float b
          ++ ", tol_eff: " ++ fmt_fixed e 3
    | _, _, Some e => "tol_eff: " ++ fmt_fixed e 3
    | _, _, None => "N/A"
    end in
  let spread_abs := rep.(abs_spread) in
  let lines :=
    append lines
      ("ΔF (abs)          : " ++ fmt_num spread_abs 3 ++ "   (" ++ tol_str ++ ")") in
  let lines :=
    append lines ("ΔF (bps vs F)     : " ++ fmt_num rep.(rel_spread_bps_vs_fbase) 2) in
  let lines :=
    append lines ("ΔF (bps vs S)     : " ++ fmt_num rep.(rel_spread_bps_vs_spot) 2) in
  let lines := append lines "" in
  let lines :=
    append lines ("Net carry (input) : " ++ str_float rep.(net_carry_input_pct) ++ "%") in
  let lines :=
    append lines
      ("Net carry (impl.) : "
         ++ match rep.(net_carry_implied_pct) with
            | None => "N/A"
            | Some v => fmt_fixed v 3 ++ "%"
            end) in
  let q_gap_bps := rep.(net_carry_gap_bps) in
  match q_gap_bps with
  | Some g =>
      let sign := if fge g 0 then "+" else "" in
      append lines ("Δq (bps)          : " ++ sign ++ fmt_fixed g 1)
  | None => lines
  end.

(** The lines of the report, before they are joined. *)
Definition report_lines (rep : Report) (top_hints : Z) : list string :=
  let lines := header_lines rep in
  let hints := rep.(root_cause_hints) in
  let lines :=
    if list_truthy hints then
      let lines := append lines "" in
      let lines := append lines "Next checks        :" in
      fold_left (fun lines h => append lines ("- " ++ h)) (slice_to hints top_hints) lines
    else lines in
  append lines (repeat_string "=" 40).

Definition format_ipv_report (rep : Report) (top_hints : Z) : string :=
  String.concat newline (report_lines rep top_hints).

End Reporter.

(** The default of [format_ipv_report]'s [top_hints]. *)
Definition default_top_hints : Z := 3.

(** * Quantities and inputs named by the properties *)

(** Exactly one of the two option prices is present. *)
Definition exactly_one {A : Type} (a b : option A) : Prop :=
  (a = None /\ b <> None) \/ (a <> None /\ b = None).

(** The inputs the validator is said to reject. *)
Definition rejected (x : EquityForwardIPVInputs) : Prop :=
  x.(spot) <= 0 \/ x.(strike) <= 0 \/ x.(T) <= 0
  \/ (exists c, x.(call) = Some c /\ c < 0)
  \/ (exists p, x.(put) = Some p /\ p < 0)
  \/ exactly_one x.(call) x.(put).

(** The cases the specification lists for the validator. *)
Definition mk_inputs (s k t : R) (c p : option R) : EquityForwardIPVInputs :=
  {| spot := s; r := 0.03; net_carry := 0.01; T := t; strike := k; call := c; put := p |}.

(** The value [implied_net_carry] computes when it computes one. *)
Definition q_solution (s F rr t : R) : option R :=
  if fle F 0 then None else Some (rr - ln (F / s) / t).

(** The quantities the properties are stated in, for an input [x] with
    option prices [c] and [p]. *)
Definition f_carry (x : EquityForwardIPVInputs) : R :=
  x.(spot) * exp ((x.(r) - x.(net_carry)) * x.(T)).

Definition f_parity (x : EquityForwardIPVInputs) (c p : R) : R :=
  x.(strike) + exp (x.(r) * x.(T)) * (c - p).

Definition spread (x : EquityForwardIPVInputs) (c p : R) : R :=
  f_parity x c p - f_carry x.

Definition tol_effective (x : EquityForwardIPVInputs) (ta tb : R) : R :=
  Rmax ta (Rabs tb * f_carry x / 10000).

Definition q_implied (x : EquityForwardIPVInputs) (c p : R) : option R :=
  q_solution x.(spot) (f_parity x c p) x.(r) x.(T).

Definition gap_bps (x : EquityForwardIPVInputs) (q : R) : R :=
  (q - x.(net_carry)) * 10000.

(** Step (4) of the hint sequence. *)
Definition carry_hints (x : EquityForwardIPVInputs) (q_impl : option R) (tq : R)
    : list string :=
  match q_impl with
  | Some q => if fge (Rabs (gap_bps x q)) tq then [hint_carry_mismatch] else []
  | None => [hint_carry_unavailable]
  end.

Definition directional_hint (d : R) : string :=
  if flt d 0 then hint_lower else hint_higher.

Definition fail_hints (x : EquityForwardIPVInputs) (d : R) (q_impl : option R) (tq : R)
    : list string :=
  [hint_timestamp; hint_conventions; directional_hint d]
    ++ carry_hints x q_impl tq
    ++ [hint_settlement; hint_bid_ask].

(** The verdict of the evaluator on an input with option prices. *)
Definition verdict (x : EquityForwardIPVInputs) (c p ta tb : R) : bool :=
  fle (Rabs (spread x c p)) (tol_effective x ta tb).

Definition hints_for (x : EquityForwardIPVInputs) (c p ta tb tq : R) : list string :=
  if verdict x c p ta tb then []
  else fail_hints x (spread x c p) (q_implied x c p) tq.

(** The report of a validated input with both option prices. *)
Definition evaluated_report (x : EquityForwardIPVInputs) (c p ta tb tq : R) (rd : Z)
    : Report :=
  {| status := if verdict x c p ta tb then status_pass else status_fail;
     pass_rule := pass_rule_text;
     baseline_forward := Some (py_round (f_carry x) rd);
     market_implied_forward := Some (py_round (f_parity x c p) rd);
     abs_spread := Some (py_round (spread x c p) rd);
     rel_spread_bps_vs_fbase := Some (py_round (spread x c p / f_carry x * 10000) 2);
     rel_spread_bps_vs_spot := Some (py_round (spread x c p / x.(spot) * 10000) 2);
     net_carry_input := x.(net_carry);
     net_carry_input_pct := py_round (x.(net_carry) * 100) 3;
     net_carry_implied := q_implied x c p;
     net_carry_implied_pct :=
       option_map (fun q => py_round (q * 100) 3) (q_implied x c p);
     net_carry_gap_bps :=
       option_map (fun q => py_round (gap_bps x q) 1) (q_implied x c p);
     pass_eff := Some (verdict x c p ta tb);
     tolerances :=
       {| tol_abs := Some ta;
          tol_bps := Some tb;
          tol_eff := Some (tol_effective x ta tb);
          tol_q_gap_bps := Some tq |};
     root_cause_hints := hints_for x c p ta tb tq;
     assumptions :=
       [("compounding", "continuous");
        ("net_carry", "dividend_yield - repo/borrow")]%string |}.

(** The input of the module's example run. *)
Definition example_inputs : EquityForwardIPVInputs :=
  {| spot := 100; r := 0.03; net_carry := 0.01; T := 0.5; strike := 100;
     call := Some 5.20; put := Some 4.80 |}.

(** The same forward with no option prices. *)
Definition example_no_options : EquityForwardIPVInputs :=
  {| spot := 100; r := 0.03; net_carry := 0.01; T := 0.5; strike := 100;
     call := None; put := None |}.

(** Agreement to three decimals. *)
Definition approx3 (v c : R) : Prop := Rabs (v - c) <= 0.0005.

(** An input whose parity forward has a seventh decimal. *)
Definition small_premium_inputs : EquityForwardIPVInputs :=
  {| spot := 1; r := 0; net_carry := 0; T := 1; strike := 1;
     call := Some 0.0000004; put := Some 0 |}.

(** The title line of the hints block. *)
Definition next_checks_title : string := "Next checks        :".

(** A FAIL report with the six hints, of the kind the example run gives. *)
Definition six_hint_report : Report :=
  {| status := status_fail;
     pass_rule := pass_rule_text;
     baseline_forward := Some 101.005017;
     market_implied_forward := Some 100.406045;
     abs_spread := Some (-0.598971);
     rel_spread_bps_vs_fbase := Some (-59.3);
     rel_spread_bps_vs_spot := Some (-59.9);
     net_carry_input := 0.01;
     net_carry_input_pct := 1;
     net_carry_implied := Some 0.0219;
     net_carry_implied_pct := Some 2.19;
     net_carry_gap_bps := Some 119;
     pass_eff := Some false;
     tolerances :=
       {| tol_abs := Some 0.20;
          tol_bps := Some 5.0;
          tol_eff := Some 0.20;
          tol_q_gap_bps := Some 50.0 |};
     root_cause_hints :=
       [hint_timestamp; hint_conventions; hint_lower; hint_carry_mismatch;
        hint_settlement; hint_bid_ask];
     assumptions :=
       [("compounding", "continuous");
        ("net_carry", "dividend_yield - repo/borrow")]%string |}.

(** A stand-in for Python's float formatting. *)
Definition fmt_stub (v : R) (nd : nat) : string := "0".
Definition str_stub (v : R) : string := "0".

(** An input whose option prices agree with the carry forward. *)
Definition at_parity_inputs : EquityForwardIPVInputs :=
  {| spot := 100; r := 0; net_carry := 0; T := 1; strike := 100;
     call := Some 5; put := Some 5 |}.

(** The same input with the option prices left out. *)
Definition without_options (x : EquityForwardIPVInputs) : EquityForwardIPVInputs :=
  {| spot := x.(spot); r := x.(r); net_carry := x.(net_carry); T := x.(T);
     strike := x.(strike); call := None; put := None |}.

(** The closing and opening rule of the text report. *)
Definition rule_line : string := repeat_string "=" 40.

(** * Properties *)

(** ** Comparisons and partial operations *)

Lemma fle_true (a b : R) : fle a b = true <-> a <= b.
Proof. unfold fle. destruct (Rle_dec a b); split; intros; try discriminate; tauto. Qed.

Lemma fle_false (a b : R) : fle a b = false <-> b < a.
Proof.
  unfold fle. destruct (Rle_dec a b); split; intros;
    try discriminate; try reflexivity; lra.
Qed.

Lemma flt_true (a b : R) : flt a b = true <-> a < b.
Proof. unfold flt. destruct (Rlt_dec a b); split; intros; try discriminate; tauto. Qed.

Lemma flt_false (a b : R) : flt a b = false <-> b <= a.
Proof.
  unfold flt. destruct (Rlt_dec a b); split; intros;
    try discriminate; try reflexivity; lra.
Qed.

Lemma fge_true (a b : R) : fge a b = true <-> b <= a.
Proof. unfold fge. apply fle_true. Qed.

Lemma fdiv_ok (a b : R) : b <> 0 -> fdiv a b = Ok (a / b).
Proof. intros Hb. unfold fdiv. destruct (Req_dec_T b 0); [contradiction | reflexivity]. Qed.

Lemma fdiv_zero (a : R) : fdiv a 0 = Raise ZeroDivisionError.
Proof. unfold fdiv. destruct (Req_dec_T 0 0); [reflexivity | contradiction]. Qed.

Lemma math_log_ok (a : R) : 0 < a -> math_log a = Ok (ln a).
Proof. intros Ha. unfold math_log. destruct (Rle_dec a 0); [lra | reflexivity]. Qed.

Lemma py_max_Rmax (a b : R) : py_max a b = Rmax a b.
Proof.
  unfold py_max, Rmax.
  destruct (Rlt_dec a b), (Rle_dec a b); try reflexivity; lra.
Qed.

(** ** The validator *)

Lemma present_and_negative_true (o : option R) :
  present_and_negative o = true <-> exists v, o = Some v /\ v < 0.
Proof.
  destruct o as [v|]; simpl.
  - rewrite flt_true. split.
    + intros Hv. exists v. split; [reflexivity | exact Hv].
    + intros [w [Hw Hlt]]. injection Hw as ->. exact Hlt.
  - split; [discriminate | intros [w [Hw _]]; discriminate].
Qed.

Lemma xorb_is_None {A : Type} (a b : option A) :
  xorb (is_None a) (is_None b) = true <-> exactly_one a b.
Proof.
  unfold exactly_one. destruct a, b; simpl; split; intros H;
    try discriminate; try reflexivity.
  - destruct H as [[H _] | [_ H]]; discriminate.
  - right. split; [discriminate | reflexivity].
  - left. split; [reflexivity | discriminate].
  - destruct H as [[_ H] | [H _]]; contradiction.
Qed.

Lemma validate_inputs_raises (x : EquityForwardIPVInputs) :
  rejected x -> exists msg, validate_inputs x = Raise (ValueError msg).
Proof.
  unfold rejected, validate_inputs. intros H.
  destruct (fle (spot x) 0) eqn:E1; [eexists; reflexivity |].
  destruct (fle (strike x) 0) eqn:E2; [eexists; reflexivity |].
  destruct (fle (T x) 0) eqn:E3; [eexists; reflexivity |].
  destruct (present_and_negative (call x)) eqn:E4; [eexists; reflexivity |].
  destruct (present_and_negative (put x)) eqn:E5; [eexists; reflexivity |].
  destruct (xorb (is_None (call x)) (is_None (put x))) eqn:E6; [eexists; reflexivity |].
  exfalso.
  apply fle_false in E1, E2, E3.
  destruct H as [H | [H | [H | [H | [H | H]]]]]; try lra.
  - apply present_and_negative_true in H. congruence.
  - apply present_and_negative_true in H. congruence.
  - apply xorb_is_None in H. congruence.
Qed.

Lemma validate_inputs_accepts (x : EquityForwardIPVInputs) :
  ~ rejected x -> validate_inputs x = Ok tt.
Proof.
  unfold rejected, validate_inputs. intros H.
  destruct (fle (spot x) 0) eqn:E1; [apply fle_true in E1; tauto |].
  destruct (fle (strike x) 0) eqn:E2; [apply fle_true in E2; tauto |].
  destruct (fle (T x) 0) eqn:E3; [apply fle_true in E3; tauto |].
  destruct (present_and_negative (call x)) eqn:E4;
    [apply present_and_negative_true in E4; tauto |].
  destruct (present_and_negative (put x)) eqn:E5;
    [apply present_and_negative_true in E5; tauto |].
  destruct (xorb (is_None (call x)) (is_None (put x))) eqn:E6;
    [apply xorb_is_None in E6; tauto |].
  reflexivity.
Qed.

Lemma rejected_dec (x : EquityForwardIPVInputs) : rejected x \/ ~ rejected x.
Proof.
  destruct (validate_inputs x) as [[]|e] eqn:E.
  - right. intros H. apply validate_inputs_raises in H. destruct H as [msg H]. congruence.
  - left. destruct (fle (spot x) 0) eqn:E1; [left; apply fle_true; exact E1 |].
    destruct (fle (strike x) 0) eqn:E2; [right; left; apply fle_true; exact E2 |].
    destruct (fle (T x) 0) eqn:E3; [right; right; left; apply fle_true; exact E3 |].
    destruct (present_and_negative (call x)) eqn:E4;
      [right; right; right; left; apply present_and_negative_true; exact E4 |].
    destruct (present_and_negative (put x)) eqn:E5;
      [right; right; right; right; left; apply present_and_negative_true; exact E5 |].
    destruct (xorb (is_None (call x)) (is_None (put x))) eqn:E6;
      [right; right; right; right; right; apply xorb_is_None; exact E6 |].
    unfold validate_inputs in E. rewrite E1, E2, E3, E4, E5, E6 in E. discriminate.
Qed.

(** What a validated input is known to satisfy. *)
Lemma validate_inputs_ok_inv (x : EquityForwardIPVInputs) :
  validate_inputs x = Ok tt ->
  0 < x.(spot) /\ 0 < x.(strike) /\ 0 < x.(T)
  /\ (forall c, x.(call) = Some c -> 0 <= c)
  /\ (forall p, x.(put) = Some p -> 0 <= p)
  /\ is_None x.(call) = is_None x.(put).
Proof.
  intros Hv.
  assert (Hn : ~ rejected x).
  { intros H. apply validate_inputs_raises in H. destruct H as [msg H]. congruence. }
  unfold rejected in Hn.
  repeat split.
  - apply Rnot_le_lt. tauto.
  - apply Rnot_le_lt. tauto.
  - apply Rnot_le_lt. tauto.
  - intros c Hc. apply Rnot_lt_le. intros Hlt. apply Hn. do 3 right. left. eauto.
  - intros p Hp. apply Rnot_lt_le. intros Hlt. apply Hn. do 4 right. left. eauto.
  - destruct (xorb (is_None (call x)) (is_None (put x))) eqn:E.
    + apply xorb_is_None in E. tauto.
    + apply xorb_eq. exact E.
Qed.

(** C4: the validator raises its one kind of error, [ValueError], exactly on
    the rejected inputs (non-positive spot, strike or year fraction, a
    negative call or put, or exactly one of the two supplied); on every
    other input it returns normally with [None] (here [tt]), and as a pure
    function it has no effect; call and put both absent is accepted. *)
Theorem validate_inputs_exact (x : EquityForwardIPVInputs) :
  ((exists msg, validate_inputs x = Raise (ValueError msg)) <-> rejected x)
  /\ (validate_inputs x = Ok tt <-> ~ rejected x)
  /\ (validate_inputs x = Ok tt \/ exists msg, validate_inputs x = Raise (ValueError msg)).
Proof.
  split; [| split].
  - split; [| apply validate_inputs_raises].
    intros [msg H]. destruct (rejected_dec x) as [Hr | Hn]; [exact Hr |].
    apply validate_inputs_accepts in Hn. congruence.
  - split; [| apply validate_inputs_accepts].
    intros H Hr. apply validate_inputs_raises in Hr. destruct Hr as [msg Hr]. congruence.
  - destruct (rejected_dec x) as [Hr | Hn].
    + right. apply validate_inputs_raises. exact Hr.
    + left. apply validate_inputs_accepts. exact Hn.
Qed.

Example validate_inputs_listed_cases :
  (forall s, s = 0 \/ s = -1 ->
     exists msg, validate_inputs (mk_inputs s 100 0.5 None None) = Raise (ValueError msg))
  /\ (exists msg, validate_inputs (mk_inputs 100 0 0.5 None None) = Raise (ValueError msg))
  /\ (forall t, t = 0 \/ t = -0.5 ->
     exists msg, validate_inputs (mk_inputs 100 100 t None None) = Raise (ValueError msg))
  /\ (exists msg,
        validate_inputs (mk_inputs 100 100 0.5 (Some (-1)) (Some 1)) = Raise (ValueError msg))
  /\ (exists msg,
        validate_inputs (mk_inputs 100 100 0.5 (Some 1) None) = Raise (ValueError msg))
  /\ (exists msg,
        validate_inputs (mk_inputs 100 100 0.5 None (Some 1)) = Raise (ValueError msg))
  /\ validate_inputs (mk_inputs 100 100 0.5 None None) = Ok tt.
Proof.
  repeat split.
  - intros s Hs. apply validate_inputs_raises. left. simpl. lra.
  - apply validate_inputs_raises. right. left. simpl. lra.
  - intros t Ht. apply validate_inputs_raises. right. right. left. simpl. lra.
  - apply validate_inputs_raises. do 3 right. left. exists (-1). simpl. split; [reflexivity | lra].
  - apply validate_inputs_raises. do 5 right. right. simpl. split; [discriminate | reflexivity].
  - apply validate_inputs_raises. do 5 right. left. simpl. split; [reflexivity | discriminate].
  - apply validate_inputs_accepts. unfold rejected, exactly_one. simpl.
    intros [H | [H | [H | [[c [H _]] | [[p [H _]] | [[_ H] | [H _]]]]]]];
      try lra; try discriminate; try (apply H; reflexivity).
Qed.

(** ** The pricer *)

Lemma forward_carry_pos (s rr q t : R) : 0 < s -> 0 < forward_carry s rr q t.
Proof.
  intros Hs. unfold forward_carry, math_exp.
  apply Rmult_lt_0_compat; [exact Hs | apply exp_pos].
Qed.

Lemma implied_net_carry_ok (s F rr t : R) :
  0 < s -> 0 < t -> implied_net_carry s F rr t = Ok (q_solution s F rr t).
Proof.
  intros Hs Ht. unfold implied_net_carry, q_solution.
  assert (E1 : fle s 0 = false) by (apply fle_false; exact Hs).
  assert (E2 : fle t 0 = false) by (apply fle_false; exact Ht).
  rewrite E1, E2. simpl.
  destruct (fle F 0) eqn:E3; [reflexivity |].
  apply fle_false in E3.
  rewrite fdiv_ok by lra. simpl.
  rewrite math_log_ok by (apply Rdiv_lt_0_compat; assumption). simpl.
  rewrite fdiv_ok by lra. reflexivity.
Qed.

(** The guards of [implied_net_carry]: absent, never an error. *)
Lemma implied_net_carry_guarded (s F rr t : R) :
  s <= 0 \/ t <= 0 \/ F <= 0 -> implied_net_carry s F rr t = Ok None.
Proof.
  intros H. unfold implied_net_carry.
  assert (E : fle s 0 || fle t 0 || fle F 0 = true).
  { destruct H as [H | [H | H]]; apply fle_true in H; rewrite H;
      repeat rewrite orb_true_r; reflexivity. }
  rewrite E. reflexivity.
Qed.

(** C7: [implied_net_carry] inverts [forward_carry]: for a positive spot and
    a positive year fraction, and any rates [rr] and [q], the net carry
    implied by the carry forward is present and is [q]. *)
Theorem implied_net_carry_forward_carry (s rr q t : R) :
  0 < s -> 0 < t ->
  implied_net_carry s (forward_carry s rr q t) rr t = Ok (Some q).
Proof.
  intros Hs Ht.
  rewrite implied_net_carry_ok by assumption.
  unfold q_solution.
  pose proof (forward_carry_pos s rr q t Hs) as HF.
  assert (E : fle (forward_carry s rr q t) 0 = false) by (apply fle_false; exact HF).
  rewrite E. do 2 f_equal.
  unfold forward_carry, math_exp.
  replace (s * exp ((rr - q) * t) / s) with (exp ((rr - q) * t)) by (field; lra).
  rewrite ln_exp. field. lra.
Qed.

Lemma implied_net_carry_forward_carry_witness :
  0 < 100 /\ 0 < 0.5
  /\ implied_net_carry 100 (forward_carry 100 0.03 0.01 0.5) 0.03 0.5 = Ok (Some 0.01).
Proof.
  split; [lra | split; [lra |]].
  apply (implied_net_carry_forward_carry 100 0.03 0.01 0.5); lra.
Defined.

(** ** The evaluator *)

Lemma build_hints_not_fail (st : string) (d : R) (q g : option R) (tq : R) :
  st <> status_fail -> build_hints st d q g tq = Ok [].
Proof.
  intros Hst. unfold build_hints.
  destruct (String.eqb st "FAIL") eqn:E; [| reflexivity].
  apply String.eqb_eq in E. contradiction.
Qed.

Lemma build_hints_fail (x : EquityForwardIPVInputs) (d : R) (q : option R) (tq : R) :
  build_hints status_fail d q (option_map (gap_bps x) q) tq = Ok (fail_hints x d q tq).
Proof.
  unfold build_hints, fail_hints, carry_hints, directional_hint, append. simpl.
  destruct q as [q|]; simpl.
  - destruct (flt d 0), (fge (Rabs (gap_bps x q)) tq); reflexivity.
  - destruct (flt d 0); reflexivity.
Qed.

Lemma f_carry_pos (x : EquityForwardIPVInputs) : 0 < x.(spot) -> 0 < f_carry x.
Proof. intros Hs. apply (forward_carry_pos _ (r x) (net_carry x) (T x) Hs). Qed.

(** On a validated input with both prices the model of [run_ipv_check]
    returns [evaluated_report]. *)
Lemma run_ipv_check_evaluated (x : EquityForwardIPVInputs) (c p ta tb tq : R) (rd : Z) :
  validate_inputs x = Ok tt -> x.(call) = Some c -> x.(put) = Some p ->
  run_ipv_check x ta tb tq rd = Ok (evaluated_report x c p ta tb tq rd).
Proof.
  intros Hv Hc Hp.
  destruct (validate_inputs_ok_inv x Hv) as (Hs & _ & Ht & _).
  pose proof (f_carry_pos x Hs) as Hf.
  unfold run_ipv_check. rewrite Hv. cbn [bind]. rewrite Hc, Hp.
  change (forward_carry (spot x) (r x) (net_carry x) (T x)) with (f_carry x).
  change (forward_from_put_call_parity (strike x) c p (r x) (T x)) with (f_parity x c p).
  change (f_parity x c p - f_carry x) with (spread x c p).
  rewrite (fdiv_ok (spread x c p) (f_carry x)) by lra. cbn [bind].
  rewrite (fdiv_ok (spread x c p) (spot x)) by lra. cbn [bind].
  rewrite (fdiv_ok (Rabs tb * f_carry x) 10000) by lra. cbn [bind].
  rewrite py_max_Rmax.
  change (Rmax ta (Rabs tb * f_carry x / 10000)) with (tol_effective x ta tb).
  change (fle (Rabs (spread x c p)) (tol_effective x ta tb)) with (verdict x c p ta tb).
  rewrite implied_net_carry_ok by assumption. cbn [bind].
  change (q_solution (spot x) (f_parity x c p) (r x) (T x)) with (q_implied x c p).
  unfold evaluated_report, hints_for.
  destruct (verdict x c p ta tb) eqn:Ev.
  - rewrite build_hints_not_fail by discriminate. cbn [bind].
    destruct (q_implied x c p); reflexivity.
  - replace (match q_implied x c p with
             | Some q => Some ((q - net_carry x) * 10000)
             | None => None
             end) with (option_map (gap_bps x) (q_implied x c p))
      by (destruct (q_implied x c p); reflexivity).
    rewrite build_hints_fail. cbn [bind].
    destruct (q_implied x c p); reflexivity.
Qed.

(** On a validated input without option prices the first report is returned. *)
Lemma run_ipv_check_no_options (x : EquityForwardIPVInputs) (ta tb tq : R) (rd : Z) :
  validate_inputs x = Ok tt -> x.(call) = None ->
  run_ipv_check x ta tb tq rd = Ok (initial_report x (f_carry x) ta tb tq rd).
Proof.
  intros Hv Hc. unfold run_ipv_check. rewrite Hv. cbn [bind]. rewrite Hc. reflexivity.
Qed.

(** ** Concrete inputs *)

Ltac not_rejected :=
  apply validate_inputs_accepts; unfold rejected, exactly_one; simpl;
  intros [H | [H | [H | [[c [H H'] ] | [[p [H H'] ] | [[H H'] | [H H'] ]]]]]];
  try lra; try discriminate;
  try (injection H as <-; lra);
  try (apply H'; reflexivity); try (apply H; reflexivity).

Lemma example_inputs_valid : validate_inputs example_inputs = Ok tt.
Proof. not_rejected. Qed.

Lemma example_no_options_valid : validate_inputs example_no_options = Ok tt.
Proof. not_rejected. Qed.

(** ** Verdict *)

Lemma verdict_true (x : EquityForwardIPVInputs) (c p ta tb : R) :
  verdict x c p ta tb = true <-> Rabs (spread x c p) <= tol_effective x ta tb.
Proof. apply fle_true. Qed.

Lemma verdict_false (x : EquityForwardIPVInputs) (c p ta tb : R) :
  verdict x c p ta tb = false <-> tol_effective x ta tb < Rabs (spread x c p).
Proof. apply fle_false. Qed.

(** C1: on a validated input with both option prices, the status is PASS
    exactly when [|abs_spread| <= tol_eff], where [abs_spread] is the parity
    forward minus the carry forward and [tol_eff] is
    [max(tol_abs, |tol_bps| * f_baseline / 10000)]; equality passes; in every
    other case the status is FAIL. *)
Theorem pass_iff_within_tolerance
    (x : EquityForwardIPVInputs) (c p ta tb tq : R) (rd : Z) :
  validate_inputs x = Ok tt -> x.(call) = Some c -> x.(put) = Some p ->
  exists rep,
    run_ipv_check x ta tb tq rd = Ok rep
    /\ (rep.(status) = status_pass
        <-> Rabs (spread x c p) <= Rmax ta (Rabs tb * f_carry x / 10000))
    /\ (rep.(status) = status_fail
        <-> ~ Rabs (spread x c p) <= Rmax ta (Rabs tb * f_carry x / 10000))
    /\ (Rabs (spread x c p) = Rmax ta (Rabs tb * f_carry x / 10000)
        -> rep.(status) = status_pass)
    /\ rep.(tolerances).(tol_eff) = Some (Rmax ta (Rabs tb * f_carry x / 10000))
    /\ (rep.(pass_eff) = Some true <-> rep.(status) = status_pass).
Proof.
  intros Hv Hc Hp.
  exists (evaluated_report x c p ta tb tq rd).
  split; [apply run_ipv_check_evaluated; assumption |].
  change (Rmax ta (Rabs tb * f_carry x / 10000)) with (tol_effective x ta tb).
  simpl.
  destruct (verdict x c p ta tb) eqn:Ev.
  - apply verdict_true in Ev.
    repeat split; intros; try reflexivity; try assumption; try discriminate.
    contradiction.
  - apply verdict_false in Ev.
    repeat split; intros; try reflexivity; try discriminate; try lra.
Qed.

Lemma pass_iff_within_tolerance_witness :
  validate_inputs example_inputs = Ok tt
  /\ example_inputs.(call) = Some 5.20
  /\ example_inputs.(put) = Some 4.80
  /\ exists rep,
       run_ipv_check example_inputs 0.20 5.0 50.0 6 = Ok rep
       /\ (rep.(status) = status_pass
           <-> Rabs (spread example_inputs 5.20 4.80)
               <= Rmax 0.20 (Rabs 5.0 * f_carry example_inputs / 10000)).
Proof.
  split; [exact example_inputs_valid | split; [reflexivity | split; [reflexivity |]]].
  destruct (pass_iff_within_tolerance example_inputs 5.20 4.80 0.20 5.0 50.0 6
              example_inputs_valid eq_refl eq_refl) as [rep [Hrun [Hpass _]]].
  exists rep. split; assumption.
Defined.

(** ** Hints *)

Lemma fail_hints_not_nil (x : EquityForwardIPVInputs) (d : R) (q : option R) (tq : R) :
  fail_hints x d q tq <> [].
Proof. unfold fail_hints. simpl. discriminate. Qed.

Lemma carry_hints_exclusive (x : EquityForwardIPVInputs) (q : option R) (tq : R) :
  ~ (In hint_carry_mismatch (carry_hints x q tq)
     /\ In hint_carry_unavailable (carry_hints x q tq)).
Proof.
  unfold carry_hints. intros [H1 H2].
  destruct q as [q|].
  - destruct (fge (Rabs (gap_bps x q)) tq); simpl in H2.
    + destruct H2 as [H2 | []]. discriminate H2.
    + exact H2.
  - simpl in H1. destruct H1 as [H1 | []]. discriminate H1.
Qed.

Lemma fail_hints_exclusive (x : EquityForwardIPVInputs) (d : R) (q : option R) (tq : R) :
  ~ (In hint_carry_mismatch (fail_hints x d q tq)
     /\ In hint_carry_unavailable (fail_hints x d q tq)).
Proof.
  unfold fail_hints, directional_hint. rewrite !in_app_iff.
  intros [[H1 | [H1 | H1]] [H2 | [H2 | H2]]].
  - simpl in H1. destruct (flt d 0); decompose [or] H1; try contradiction; discriminate.
  - simpl in H1. destruct (flt d 0); decompose [or] H1; try contradiction; discriminate.
  - simpl in H1. destruct (flt d 0); decompose [or] H1; try contradiction; discriminate.
  - simpl in H2. destruct (flt d 0); decompose [or] H2; try contradiction; discriminate.
  - exact (carry_hints_exclusive x q tq (conj H1 H2)).
  - simpl in H2. decompose [or] H2; try contradiction; discriminate.
  - simpl in H1. decompose [or] H1; try contradiction; discriminate.
  - simpl in H1. decompose [or] H1; try contradiction; discriminate.
  - simpl in H1. decompose [or] H1; try contradiction; discriminate.
Qed.

(** C3: on a validated input the hint list is non-empty exactly when the
    status is FAIL.  On FAIL it is, in this order: timestamp alignment,
    conventions, the directional hint (LOWER when the spread is negative,
    HIGHER otherwise), then the carry step, then settlement and bid/ask.  The
    carry step is the mismatch hint when the implied carry is present and
    its gap in bps is at least [tol_q_gap_bps] in absolute value, the
    not-available hint exactly when the implied carry is absent, and nothing
    otherwise; the two never appear together.  On PASS and on N/A the list is
    empty. *)
Theorem hints_iff_fail (x : EquityForwardIPVInputs) (ta tb tq : R) (rd : Z) :
  validate_inputs x = Ok tt ->
  exists rep,
    run_ipv_check x ta tb tq rd = Ok rep
    /\ (rep.(root_cause_hints) <> [] <-> rep.(status) = status_fail)
    /\ (rep.(status) = status_pass \/ rep.(status) = status_na
        -> rep.(root_cause_hints) = [])
    /\ ~ (In hint_carry_mismatch rep.(root_cause_hints)
          /\ In hint_carry_unavailable rep.(root_cause_hints))
    /\ (rep.(status) = status_fail ->
        exists c p step4,
          x.(call) = Some c /\ x.(put) = Some p
          /\ rep.(root_cause_hints) =
               [hint_timestamp; hint_conventions;
                if flt (spread x c p) 0 then hint_lower else hint_higher]
               ++ step4 ++ [hint_settlement; hint_bid_ask]
          /\ (step4 = [hint_carry_mismatch]
              <-> exists q, rep.(net_carry_implied) = Some q
                            /\ tq <= Rabs ((q - x.(net_carry)) * 10000))
          /\ (step4 = [hint_carry_unavailable] <-> rep.(net_carry_implied) = None)
          /\ (step4 = []
              <-> exists q, rep.(net_carry_implied) = Some q
                            /\ Rabs ((q - x.(net_carry)) * 10000) < tq)).
Proof.
  intros Hv.
  destruct (call x) as [c|] eqn:Hc.
  - destruct (put x) as [p|] eqn:Hp.
    2:{ apply validate_inputs_ok_inv in Hv. destruct Hv as (_ & _ & _ & _ & _ & Hn).
        rewrite Hc, Hp in Hn. discriminate Hn. }
    exists (evaluated_report x c p ta tb tq rd).
    split; [apply run_ipv_check_evaluated; assumption |].
    simpl. unfold hints_for.
    destruct (verdict x c p ta tb) eqn:Ev.
    + split; [split; [intros H; contradiction | discriminate] |].
      split; [reflexivity |].
      split; [intros [[] _] | discriminate].
    + split; [split; [reflexivity | intros _; apply fail_hints_not_nil] |].
      split; [intros [H | H]; discriminate H |].
      split; [apply fail_hints_exclusive |].
      intros _. exists c, p, (carry_hints x (q_implied x c p) tq).
      repeat split; try reflexivity; unfold carry_hints, gap_bps.
      * destruct (q_implied x c p) as [q|]; [| discriminate].
        destruct (fge (Rabs ((q - net_carry x) * 10000)) tq) eqn:Eg; [| discriminate].
        intros _. exists q. split; [reflexivity | apply fge_true; exact Eg].
      * intros [q [Hq Hle]]. rewrite Hq.
        apply fge_true in Hle. rewrite Hle. reflexivity.
      * destruct (q_implied x c p) as [q|]; [| reflexivity].
        destruct (fge (Rabs ((q - net_carry x) * 10000)) tq); discriminate.
      * intros Hq. rewrite Hq. reflexivity.
      * destruct (q_implied x c p) as [q|]; [| discriminate].
        destruct (fge (Rabs ((q - net_carry x) * 10000)) tq) eqn:Eg; [discriminate |].
        intros _. exists q. split; [reflexivity | apply fle_false; exact Eg].
      * intros [q [Hq Hlt]]. rewrite Hq.
        apply fle_false in Hlt. unfold fge. rewrite Hlt. reflexivity.
  - exists (initial_report x (f_carry x) ta tb tq rd).
    split; [apply run_ipv_check_no_options; assumption |].
    simpl. split; [split; [intros H; contradiction | discriminate] |].
    split; [reflexivity |].
    split; [intros [[] _] | discriminate].
Qed.

Lemma hints_iff_fail_witness :
  validate_inputs example_inputs = Ok tt
  /\ exists rep,
       run_ipv_check example_inputs 0.20 5.0 50.0 6 = Ok rep
       /\ (rep.(root_cause_hints) <> [] <-> rep.(status) = status_fail).
Proof.
  split; [exact example_inputs_valid |].
  destruct (hints_iff_fail example_inputs 0.20 5.0 50.0 6 example_inputs_valid)
    as [rep [Hrun [Hiff _]]].
  exists rep. split; assumption.
Defined.

(** ** No option prices *)

(** C6: a validated input without option prices gets, as a normal return
    value, a report with status N/A, the baseline forward populated, and
    every option-derived field absent: market-implied forward, both
    spreads in bps and the absolute one, implied net carry and its
    percentage, carry gap and pass flag are [None] and the hint list is
    empty. *)
Theorem no_options_not_applicable (x : EquityForwardIPVInputs) (ta tb tq : R) (rd : Z) :
  validate_inputs x = Ok tt -> x.(call) = None -> x.(put) = None ->
  exists rep,
    run_ipv_check x ta tb tq rd = Ok rep
    /\ rep.(status) = status_na
    /\ rep.(baseline_forward)
       = Some (py_round (x.(spot) * exp ((x.(r) - x.(net_carry)) * x.(T))) rd)
    /\ rep.(market_implied_forward) = None
    /\ rep.(abs_spread) = None
    /\ rep.(rel_spread_bps_vs_fbase) = None
    /\ rep.(rel_spread_bps_vs_spot) = None
    /\ rep.(net_carry_implied) = None
    /\ rep.(net_carry_implied_pct) = None
    /\ rep.(net_carry_gap_bps) = None
    /\ rep.(pass_eff) = None
    /\ rep.(root_cause_hints) = [].
Proof.
  intros Hv Hc _.
  exists (initial_report x (f_carry x) ta tb tq rd).
  split; [apply run_ipv_check_no_options; assumption |].
  simpl. repeat split; reflexivity.
Qed.

Lemma no_options_not_applicable_witness :
  validate_inputs example_no_options = Ok tt
  /\ example_no_options.(call) = None
  /\ example_no_options.(put) = None
  /\ exists rep,
       run_ipv_check example_no_options 0.20 5.0 50.0 6 = Ok rep
       /\ rep.(status) = status_na.
Proof.
  split; [exact example_no_options_valid | split; [reflexivity | split; [reflexivity |]]].
  destruct (no_options_not_applicable example_no_options 0.20 5.0 50.0 6
              example_no_options_valid eq_refl eq_refl) as [rep [Hrun [Hst _]]].
  exists rep. split; assumption.
Defined.

(** C10: in the report of a validated input without option prices the
    effective tolerance and the pass flag are absent, while the configured
    tolerances, the input net carry, the pass-rule text and the assumptions
    are populated; over all validated inputs, the effective tolerance and
    the pass flag are present exactly in the PASS and FAIL reports. *)
Theorem tolerance_and_verdict_only_when_evaluated
    (x : EquityForwardIPVInputs) (ta tb tq : R) (rd : Z) :
  validate_inputs x = Ok tt ->
  exists rep,
    run_ipv_check x ta tb tq rd = Ok rep
    /\ (x.(call) = None ->
        rep.(status) = status_na
        /\ rep.(tolerances).(tol_eff) = None
        /\ rep.(pass_eff) = None
        /\ rep.(tolerances).(tol_abs) = Some ta
        /\ rep.(tolerances).(tol_bps) = Some tb
        /\ rep.(tolerances).(tol_q_gap_bps) = Some tq
        /\ rep.(net_carry_input) = x.(net_carry)
        /\ rep.(pass_rule) = pass_rule_text
        /\ rep.(assumptions)
           = [("compounding", "continuous");
              ("net_carry", "dividend_yield - repo/borrow")]%string)
    /\ (rep.(tolerances).(tol_eff) <> None
        <-> rep.(status) = status_pass \/ rep.(status) = status_fail)
    /\ (rep.(pass_eff) <> None
        <-> rep.(status) = status_pass \/ rep.(status) = status_fail).
Proof.
  intros Hv.
  destruct (call x) as [c|] eqn:Hc.
  - destruct (put x) as [p|] eqn:Hp.
    2:{ apply validate_inputs_ok_inv in Hv. destruct Hv as (_ & _ & _ & _ & _ & Hn).
        rewrite Hc, Hp in Hn. discriminate Hn. }
    exists (evaluated_report x c p ta tb tq rd).
    split; [apply run_ipv_check_evaluated; assumption |].
    simpl. split; [discriminate |].
    destruct (verdict x c p ta tb); split; split; intros; try discriminate; auto.
  - exists (initial_report x (f_carry x) ta tb tq rd).
    split; [apply run_ipv_check_no_options; assumption |].
    simpl. split; [intros _; repeat split; reflexivity |].
    split; split; intros H; try contradiction; destruct H as [H | H]; discriminate H.
Qed.

Lemma tolerance_and_verdict_only_when_evaluated_witness :
  validate_inputs example_no_options = Ok tt
  /\ exists rep,
       run_ipv_check example_no_options 0.20 5.0 50.0 6 = Ok rep
       /\ rep.(tolerances).(tol_eff) = None
       /\ rep.(pass_eff) = None.
Proof.
  split; [exact example_no_options_valid |].
  destruct (tolerance_and_verdict_only_when_evaluated example_no_options 0.20 5.0 50.0 6
              example_no_options_valid) as [rep [Hrun [Hna _]]].
  destruct (Hna eq_refl) as (_ & Ht & Hp & _).
  exists rep. repeat split; assumption.
Defined.

(** ** Rounding *)

Lemma round_half_even_error (y : R) : Rabs (IZR (round_half_even y) - y) <= 1 / 2.
Proof.
  destruct (base_Int_part y) as [Hlo Hhi].
  unfold round_half_even.
  destruct (Rlt_dec (y - IZR (Int_part y)) (1 / 2)) as [H1 | H1].
  - apply Rabs_le. lra.
  - destruct (Rlt_dec (1 / 2) (y - IZR (Int_part y))) as [H2 | H2].
    + rewrite plus_IZR. apply Rabs_le. lra.
    + destruct (Z.even (Int_part y)).
      * apply Rabs_le. lra.
      * rewrite plus_IZR. apply Rabs_le. lra.
Qed.

Lemma round_half_even_below (z : Z) (y : R) :
  IZR z <= y < IZR z + 1 / 2 -> round_half_even y = z.
Proof.
  intros [Hlo Hhi].
  assert (Hz : z = Int_part y) by (apply Int_part_spec; lra).
  unfold round_half_even. rewrite <- Hz.
  destruct (Rlt_dec (y - IZR z) (1 / 2)); [reflexivity | lra].
Qed.

Lemma pow10_pos (n : Z) : 0 < powerRZ 10 n.
Proof. apply powerRZ_lt. lra. Qed.

(** [round(v, n)] is within half a unit of the [n]-th decimal of [v]. *)
Lemma py_round_error (v : R) (n : Z) :
  Rabs (py_round v n - v) <= 1 / 2 / powerRZ 10 n.
Proof.
  pose proof (pow10_pos n) as HP.
  pose proof (round_half_even_error (v * powerRZ 10 n)) as He.
  unfold py_round.
  replace (IZR (round_half_even (v * powerRZ 10 n)) / powerRZ 10 n - v)
    with ((IZR (round_half_even (v * powerRZ 10 n)) - v * powerRZ 10 n) / powerRZ 10 n)
    by (field; lra).
  unfold Rdiv at 1. rewrite Rabs_mult.
  rewrite (Rabs_pos_eq (/ powerRZ 10 n)) by (left; apply Rinv_0_lt_compat; exact HP).
  unfold Rdiv at 2.
  apply Rmult_le_compat_r; [left; apply Rinv_0_lt_compat; exact HP | exact He].
Qed.

Lemma pow10_6 : powerRZ 10 6 = 1000000.
Proof. simpl. lra. Qed.

Lemma py_round_error_6 (v : R) : Rabs (py_round v 6 - v) <= 0.0000005.
Proof.
  pose proof (py_round_error v 6) as H. rewrite pow10_6 in H. lra.
Qed.

(** ** Bounds on the exponential *)

Lemma exp_upper (h b : R) : 0 <= h < 1 -> 1 <= (1 - h) * b -> exp h <= b.
Proof.
  intros [H0 H1] Hb.
  pose proof (exp_ineq1_le (- h)) as Hlo.
  pose proof (exp_pos h) as Hp.
  assert (Hinv : exp h * exp (- h) = 1).
  { rewrite <- exp_plus. replace (h + - h) with 0 by lra. apply exp_0. }
  nra.
Qed.

Lemma exp_double (h a b a' b' : R) :
  0 <= a -> a <= exp h <= b -> a' <= a * a -> b * b <= b' ->
  a' <= exp (2 * h) <= b'.
Proof.
  intros Ha [Hlo Hhi] Ha' Hb'.
  replace (2 * h) with (h + h) by lra. rewrite exp_plus.
  split; nra.
Qed.

Lemma exp_0_01_bounds : 1.010049378048 <= exp 0.01 <= 1.010050956312.
Proof.
  assert (H0 : 1.00015625 <= exp 0.00015625 <= 1.000156274418).
  { split; [pose proof (exp_ineq1_le 0.00015625); lra | apply exp_upper; lra]. }
  assert (H1 : 1.000312524414 <= exp 0.0003125 <= 1.000312573258).
  { replace 0.0003125 with (2 * 0.00015625) by lra.
    apply (exp_double _ 1.00015625 1.000156274418); [lra | exact H0 | lra | lra]. }
  assert (H2 : 1.000625146499 <= exp 0.000625 <= 1.000625244219).
  { replace 0.000625 with (2 * 0.0003125) by lra.
    apply (exp_double _ 1.000312524414 1.000312573258); [lra | exact H1 | lra | lra]. }
  assert (H3 : 1.001250683806 <= exp 0.00125 <= 1.001250879369).
  { replace 0.00125 with (2 * 0.000625) by lra.
    apply (exp_double _ 1.000625146499 1.000625244219); [lra | exact H2 | lra | lra]. }
  assert (H4 : 1.002502931821 <= exp 0.0025 <= 1.002503323438).
  { replace 0.0025 with (2 * 0.00125) by lra.
    apply (exp_double _ 1.001250683806 1.001250879369); [lra | exact H3 | lra | lra]. }
  assert (H5 : 1.005012128309 <= exp 0.005 <= 1.005012913505).
  { replace 0.005 with (2 * 0.0025) by lra.
    apply (exp_double _ 1.002502931821 1.002503323438); [lra | exact H4 | lra | lra]. }
  assert (H6 : 1.010049378048 <= exp 0.01 <= 1.010050956312).
  { replace 0.01 with (2 * 0.005) by lra.
    apply (exp_double _ 1.005012128309 1.005012913505); [lra | exact H5 | lra | lra]. }
  exact H6.
Qed.

Lemma exp_0_015_bounds : 1.015098807505 <= exp 0.015 <= 1.015127357622.
Proof.
  assert (H0 : 1.001875 <= exp 0.001875 <= 1.00187852223).
  { split; [pose proof (exp_ineq1_le 0.001875); lra | apply exp_upper; lra]. }
  assert (H1 : 1.003753515625 <= exp 0.00375 <= 1.003760573306).
  { replace 0.00375 with (2 * 0.001875) by lra.
    apply (exp_double _ 1.001875 1.00187852223); [lra | exact H0 | lra | lra]. }
  assert (H2 : 1.007521120129 <= exp 0.0075 <= 1.007535288524).
  { replace 0.0075 with (2 * 0.00375) by lra.
    apply (exp_double _ 1.003753515625 1.003760573306); [lra | exact H1 | lra | lra]. }
  assert (H3 : 1.015098807505 <= exp 0.015 <= 1.015127357622).
  { replace 0.015 with (2 * 0.0075) by lra.
    apply (exp_double _ 1.007521120129 1.007535288524); [lra | exact H2 | lra | lra]. }
  exact H3.
Qed.

(** ** The example run *)

Lemma example_f_carry_bounds :
  101.0049378048 <= f_carry example_inputs <= 101.0050956312.
Proof.
  unfold f_carry, example_inputs. simpl.
  replace ((0.03 - 0.01) * 0.5) with 0.01 by lra.
  pose proof exp_0_01_bounds. lra.
Qed.

Lemma example_f_parity_bounds :
  100.406039523002 <= f_parity example_inputs 5.20 4.80 <= 100.4060509430488.
Proof.
  unfold f_parity, example_inputs. simpl.
  replace (0.03 * 0.5) with 0.015 by lra.
  pose proof exp_0_015_bounds. lra.
Qed.

Lemma example_tol_effective : tol_effective example_inputs 0.20 5.0 = 0.20.
Proof.
  unfold tol_effective.
  pose proof example_f_carry_bounds as Hb.
  rewrite (Rabs_pos_eq 5.0) by lra.
  apply Rmax_left. lra.
Qed.

Lemma example_verdict : verdict example_inputs 5.20 4.80 0.20 5.0 = false.
Proof.
  apply verdict_false. rewrite example_tol_effective.
  pose proof example_f_carry_bounds. pose proof example_f_parity_bounds.
  unfold spread. rewrite Rabs_left; lra.
Qed.

Lemma approx3_rounded (v c : R) :
  Rabs (v - c) <= 0.0004995 -> approx3 (py_round v 6) c.
Proof.
  intros Hv. unfold approx3.
  pose proof (py_round_error_6 v) as He.
  replace (py_round v 6 - c) with ((py_round v 6 - v) + (v - c)) by lra.
  eapply Rle_trans; [apply Rabs_triang | lra].
Qed.

(** C2, with the effective tolerance as the engine computes it: on the
    example input with [tol_abs = 0.20] and
    [tol_bps = 5.0] the report has baseline forward 101.005, market-implied
    forward 100.406 and spread -0.599, each to three decimals; the relative
    band [5 * f_baseline / 10000] is 0.0505 to four decimals, below the
    absolute band, so the effective tolerance is [max(0.20, 0.0505) = 0.20];
    the status is FAIL. *)
Theorem example_run_fails :
  exists rep b m d,
    run_ipv_check example_inputs 0.20 5.0 50.0 6 = Ok rep
    /\ rep.(baseline_forward) = Some b /\ approx3 b 101.005
    /\ rep.(market_implied_forward) = Some m /\ approx3 m 100.406
    /\ rep.(abs_spread) = Some d /\ approx3 d (-0.599)
    /\ Rabs (Rabs 5.0 * f_carry example_inputs / 10000 - 0.0505) <= 0.00005
    /\ rep.(tolerances).(tol_eff) = Some 0.20
    /\ rep.(status) = status_fail.
Proof.
  pose proof example_f_carry_bounds as Hb.
  pose proof example_f_parity_bounds as Hm.
  eexists. exists (py_round (f_carry example_inputs) 6).
  exists (py_round (f_parity example_inputs 5.20 4.80) 6).
  exists (py_round (spread example_inputs 5.20 4.80) 6).
  split; [apply (run_ipv_check_evaluated example_inputs 5.20 4.80);
            [exact example_inputs_valid | reflexivity | reflexivity] |].
  simpl. rewrite example_verdict, example_tol_effective.
  split; [reflexivity |].
  split; [apply approx3_rounded; apply Rabs_le; lra |].
  split; [reflexivity |].
  split; [apply approx3_rounded; apply Rabs_le; lra |].
  split; [reflexivity |].
  split; [apply approx3_rounded; unfold spread; apply Rabs_le; lra |].
  split; [rewrite (Rabs_pos_eq 5.0) by lra; apply Rabs_le; lra |].
  split; reflexivity.
Qed.

(** The effective tolerance of the example run is 0.20: it is not 0.505, to
    three decimals or to any margin below 0.3. *)
Lemma example_tol_eff_is_not_0_505 :
  exists rep,
    run_ipv_check example_inputs 0.20 5.0 50.0 6 = Ok rep
    /\ rep.(tolerances).(tol_eff) = Some 0.20
    /\ ~ approx3 0.20 0.505
    /\ (forall e, rep.(tolerances).(tol_eff) = Some e -> 0.3 < Rabs (e - 0.505)).
Proof.
  eexists.
  split; [apply (run_ipv_check_evaluated example_inputs 5.20 4.80);
            [exact example_inputs_valid | reflexivity | reflexivity] |].
  simpl. rewrite example_tol_effective.
  split; [reflexivity |].
  split.
  - unfold approx3. rewrite Rabs_left by lra. lra.
  - intros e He. injection He as <-. rewrite Rabs_left by lra. lra.
Qed.

(** ** Reported forwards *)

Lemma small_premium_inputs_valid : validate_inputs small_premium_inputs = Ok tt.
Proof. not_rejected. Qed.

Lemma small_premium_f_parity :
  small_premium_inputs.(strike)
  + exp (small_premium_inputs.(r) * small_premium_inputs.(T)) * (0.0000004 - 0)
  = 1.0000004.
Proof. simpl. replace (0 * 1) with 0 by lra. rewrite exp_0. lra. Qed.

Lemma small_premium_rounded : py_round 1.0000004 6 = 1.
Proof.
  unfold py_round. rewrite pow10_6.
  rewrite (round_half_even_below 1000000) by lra. lra.
Qed.

(** With the default rounding, the reported market-implied forward of
    [small_premium_inputs] is 1, while [strike + exp(r*T)*(call - put)] is
    1.0000004. *)
Lemma reported_forward_not_exact :
  exists rep,
    run_ipv_check small_premium_inputs 0.20 5.0 50.0 6 = Ok rep
    /\ rep.(market_implied_forward) = Some 1
    /\ rep.(market_implied_forward)
       <> Some (small_premium_inputs.(strike)
                + exp (small_premium_inputs.(r) * small_premium_inputs.(T))
                  * (0.0000004 - 0)).
Proof.
  eexists.
  split; [apply (run_ipv_check_evaluated small_premium_inputs 0.0000004 0);
            [exact small_premium_inputs_valid | reflexivity | reflexivity] |].
  cbn [market_implied_forward evaluated_report].
  unfold f_parity. rewrite small_premium_f_parity, small_premium_rounded.
  split; [reflexivity |].
  intros H. injection H as H. lra.
Qed.

(** C5, for the values as they are reported: on a validated input with both option prices, the
    pricer's formulas are [K + exp(r*T)*(C - P)] and
    [spot * exp((r - net_carry) * T)]; the report holds the market-implied
    forward, the baseline forward and their difference each rounded to
    [rounding] decimals, so each reported value is within half a unit of
    that decimal of the exact one. *)
Theorem reported_forwards_rounded
    (x : EquityForwardIPVInputs) (c p ta tb tq : R) (rd : Z) :
  validate_inputs x = Ok tt -> x.(call) = Some c -> x.(put) = Some p ->
  let f_market := x.(strike) + exp (x.(r) * x.(T)) * (c - p) in
  let f_baseline := x.(spot) * exp ((x.(r) - x.(net_carry)) * x.(T)) in
  forward_from_put_call_parity x.(strike) c p x.(r) x.(T) = f_market
  /\ forward_carry x.(spot) x.(r) x.(net_carry) x.(T) = f_baseline
  /\ exists rep m b d,
       run_ipv_check x ta tb tq rd = Ok rep
       /\ rep.(market_implied_forward) = Some m /\ m = py_round f_market rd
       /\ rep.(baseline_forward) = Some b /\ b = py_round f_baseline rd
       /\ rep.(abs_spread) = Some d /\ d = py_round (f_market - f_baseline) rd
       /\ Rabs (m - f_market) <= 1 / 2 / powerRZ 10 rd
       /\ Rabs (b - f_baseline) <= 1 / 2 / powerRZ 10 rd
       /\ Rabs (d - (f_market - f_baseline)) <= 1 / 2 / powerRZ 10 rd.
Proof.
  intros Hv Hc Hp f_market f_baseline.
  split; [reflexivity | split; [reflexivity |]].
  exists (evaluated_report x c p ta tb tq rd),
    (py_round f_market rd), (py_round f_baseline rd),
    (py_round (f_market - f_baseline) rd).
  split; [apply run_ipv_check_evaluated; assumption |].
  repeat split; try reflexivity; apply py_round_error.
Qed.

Lemma reported_forwards_rounded_witness :
  validate_inputs example_inputs = Ok tt
  /\ example_inputs.(call) = Some 5.20
  /\ example_inputs.(put) = Some 4.80
  /\ exists rep m,
       run_ipv_check example_inputs 0.20 5.0 50.0 6 = Ok rep
       /\ rep.(market_implied_forward) = Some m
       /\ m = py_round (example_inputs.(strike)
                        + exp (example_inputs.(r) * example_inputs.(T)) * (5.20 - 4.80)) 6.
Proof.
  split; [exact example_inputs_valid | split; [reflexivity | split; [reflexivity |]]].
  destruct (reported_forwards_rounded example_inputs 5.20 4.80 0.20 5.0 50.0 6
              example_inputs_valid eq_refl eq_refl)
    as (_ & _ & rep & m & b & d & Hrun & Hm & Hm' & _).
  exists rep, m. repeat split; assumption.
Defined.

(** ** The reporter *)

Section ReporterProperties.

Local Open Scope string_scope.

Variable fmt_fixed : R -> nat -> string.
Variable str_float : R -> string.

(** The header never ends in a blank line: its last line is one of the two
    net-carry lines. *)
Lemma header_lines_last (rep : Report) :
  exists init l,
    header_lines fmt_fixed str_float rep = (init ++ [l])%list /\ l <> "".
Proof.
  unfold header_lines, append.
  destruct (net_carry_gap_bps rep) as [g|].
  - eexists. eexists. split; [reflexivity |]. simpl. discriminate.
  - eexists. eexists. split; [reflexivity |]. simpl. discriminate.
Qed.

(** No header line is the title of the hints block. *)
Lemma header_lines_no_title (rep : Report) :
  ~ In next_checks_title (header_lines fmt_fixed str_float rep).
Proof.
  unfold header_lines, append, next_checks_title.
  destruct (net_carry_gap_bps rep) as [g|];
    destruct (str_truthy (pass_rule rep));
    rewrite !in_app_iff; simpl;
    intros H; decompose [or] H; clear H;
    try contradiction; congruence.
Qed.

Lemma report_lines_no_hints (rep : Report) (top_hints : Z) :
  rep.(root_cause_hints) = [] ->
  report_lines fmt_fixed str_float rep top_hints
  = (header_lines fmt_fixed str_float rep ++ [repeat_string "=" 40])%list.
Proof. intros Hh. unfold report_lines. rewrite Hh. reflexivity. Qed.

Lemma report_lines_hints (rep : Report) (top_hints : Z) (h : string) (hs : list string) :
  rep.(root_cause_hints) = h :: hs ->
  report_lines fmt_fixed str_float rep top_hints
  = (header_lines fmt_fixed str_float rep
       ++ [""; next_checks_title]
       ++ map (fun h => "- " ++ h)%string (slice_to (h :: hs) top_hints)
       ++ [repeat_string "=" 40])%list.
Proof.
  intros Hh. unfold report_lines. rewrite Hh. cbn [list_truthy].
  assert (Hfold : forall (l acc : list string),
             fold_left (fun lines h0 => append lines ("- " ++ h0)) l acc
             = (acc ++ map (fun h0 => "- " ++ h0)%string l)%list).
  { induction l as [| a l IH]; intros acc; simpl.
    - rewrite app_nil_r. reflexivity.
    - rewrite IH. unfold append. rewrite <- app_assoc. reflexivity. }
  rewrite Hfold. unfold append. rewrite <- !app_assoc. reflexivity.
Qed.

End ReporterProperties.

(** C8: for a report whose hint list has six entries, the reporter called
    with [top_hints = 2] renders, after the header, a blank line, the
    "Next checks" title and exactly the first two hints in their order,
    then the closing rule; for a report whose hint list is empty, whatever
    [top_hints] is, the closing rule follows the header directly: no
    "Next checks" line and no blank line before it. *)
Theorem reporter_truncates_and_omits
    (fmt_fixed : R -> nat -> string) (str_float : R -> string) (rep : Report) :
  (forall h1 h2 h3 h4 h5 h6 : string,
     rep.(root_cause_hints) = [h1; h2; h3; h4; h5; h6] ->
     report_lines fmt_fixed str_float rep 2
     = header_lines fmt_fixed str_float rep
         ++ [""; "Next checks        :"; "- " ++ h1; "- " ++ h2; repeat_string "=" 40]%string
     /\ format_ipv_report fmt_fixed str_float rep 2
        = String.concat newline
            (header_lines fmt_fixed str_float rep
               ++ [""; "Next checks        :"; "- " ++ h1; "- " ++ h2;
                   repeat_string "=" 40]%string))
  /\ (rep.(root_cause_hints) = [] ->
      forall top_hints : Z,
        report_lines fmt_fixed str_float rep top_hints
        = header_lines fmt_fixed str_float rep ++ [repeat_string "=" 40]
        /\ format_ipv_report fmt_fixed str_float rep top_hints
           = String.concat newline
               (header_lines fmt_fixed str_float rep ++ [repeat_string "=" 40])
        /\ ~ In "Next checks        :"%string
               (report_lines fmt_fixed str_float rep top_hints)
        /\ exists init l,
             report_lines fmt_fixed str_float rep top_hints
             = init ++ [l; repeat_string "=" 40]
             /\ l <> ""%string).
Proof.
  split.
  - intros h1 h2 h3 h4 h5 h6 Hh.
    assert (Hl : report_lines fmt_fixed str_float rep 2
                 = header_lines fmt_fixed str_float rep
                     ++ [""; "Next checks        :"; "- " ++ h1; "- " ++ h2;
                         repeat_string "=" 40]%string).
    { rewrite (report_lines_hints fmt_fixed str_float rep 2 h1 [h2; h3; h4; h5; h6] Hh).
      reflexivity. }
    split; [exact Hl |].
    unfold format_ipv_report. rewrite Hl. reflexivity.
  - intros Hh top_hints.
    pose proof (report_lines_no_hints fmt_fixed str_float rep top_hints Hh) as Hl.
    split; [exact Hl |].
    split; [unfold format_ipv_report; rewrite Hl; reflexivity |].
    split.
    + rewrite Hl. rewrite in_app_iff. intros [H | H].
      * exact (header_lines_no_title fmt_fixed str_float rep H).
      * simpl in H. destruct H as [H | []]. discriminate H.
    + destruct (header_lines_last fmt_fixed str_float rep) as (init & l & Hi & Hne).
      exists init, l. split; [| exact Hne].
      rewrite Hl, Hi. rewrite <- app_assoc. reflexivity.
Qed.

Lemma reporter_truncates_and_omits_witness :
  six_hint_report.(root_cause_hints)
  = [hint_timestamp; hint_conventions; hint_lower; hint_carry_mismatch;
     hint_settlement; hint_bid_ask]
  /\ report_lines fmt_stub str_stub six_hint_report 2
     = header_lines fmt_stub str_stub six_hint_report
         ++ [""; "Next checks        :"; "- " ++ hint_timestamp; "- " ++ hint_conventions;
             repeat_string "=" 40]%string.
Proof.
  split; [reflexivity |].
  apply (proj1 (reporter_truncates_and_omits fmt_stub str_stub six_hint_report)
           hint_timestamp hint_conventions hint_lower hint_carry_mismatch
           hint_settlement hint_bid_ask eq_refl).
Defined.

(** * Further properties of the pricer *)

(** X1: the guards of [implied_net_carry].  Under any of them (a
    non-positive spot, year fraction or target forward) the result is
    absent and nothing is divided or passed to the logarithm, so a zero spot
    or a zero year fraction is not an error there; the result is absent only
    under a guard; and a carry that is returned is
    [r - ln(F_target / spot) / T], with the spot, the year fraction and the
    target forward all positive. *)
Theorem implied_net_carry_none_iff_guard (s F rr t : R) :
  (s <= 0 \/ t <= 0 \/ F <= 0 -> implied_net_carry s F rr t = Ok None)
  /\ (implied_net_carry s F rr t = Ok None -> s <= 0 \/ t <= 0 \/ F <= 0)
  /\ (forall q, implied_net_carry s F rr t = Ok (Some q) ->
        0 < s /\ 0 < t /\ 0 < F /\ q = rr - ln (F / s) / t).
Proof.
  split; [apply implied_net_carry_guarded |].
  destruct (Rle_dec s 0) as [Hs | Hs].
  { split; [tauto |]. intros q H.
    rewrite implied_net_carry_guarded in H by tauto. discriminate H. }
  destruct (Rle_dec t 0) as [Ht | Ht].
  { split; [tauto |]. intros q H.
    rewrite implied_net_carry_guarded in H by tauto. discriminate H. }
  rewrite implied_net_carry_ok by lra.
  unfold q_solution. destruct (fle F 0) eqn:E.
  - apply fle_true in E. split; [tauto | discriminate].
  - apply fle_false in E. split; [discriminate |].
    intros q H. injection H as <-. repeat split; lra.
Qed.

Lemma ln_lt_exp (a y : R) : 0 < a -> (ln a < y <-> a < exp y).
Proof.
  intros Ha. split; intros H.
  - rewrite <- (exp_ln a Ha). apply exp_increasing. exact H.
  - rewrite <- (ln_exp y). apply ln_increasing; assumption.
Qed.

(** X2: the converse round trip.  Whenever [implied_net_carry] returns a
    carry for a target forward, [forward_carry] at that carry gives the
    target forward back. *)
Theorem forward_carry_implied_net_carry (s F rr t q : R) :
  implied_net_carry s F rr t = Ok (Some q) ->
  forward_carry s rr q t = F.
Proof.
  intros H.
  destruct (Rle_dec s 0) as [Hs | Hs].
  { rewrite implied_net_carry_guarded in H by tauto. discriminate H. }
  destruct (Rle_dec t 0) as [Ht | Ht].
  { rewrite implied_net_carry_guarded in H by tauto. discriminate H. }
  rewrite implied_net_carry_ok in H by lra.
  unfold q_solution in H.
  destruct (fle F 0) eqn:E; [discriminate H |].
  apply fle_false in E. injection H as <-.
  unfold forward_carry, math_exp.
  replace ((rr - (rr - ln (F / s) / t)) * t) with (ln (F / s)) by (field; lra).
  rewrite exp_ln by (apply Rdiv_lt_0_compat; lra).
  field. lra.
Qed.

Lemma forward_carry_implied_net_carry_witness :
  implied_net_carry 1 1 0 1 = Ok (Some (0 - ln (1 / 1) / 1))
  /\ forward_carry 1 0 (0 - ln (1 / 1) / 1) 1 = 1.
Proof.
  assert (H : implied_net_carry 1 1 0 1 = Ok (Some (0 - ln (1 / 1) / 1))).
  { rewrite implied_net_carry_ok by lra. unfold q_solution.
    assert (E : fle 1 0 = false) by (apply fle_false; lra).
    rewrite E. reflexivity. }
  split; [exact H |].
  apply (forward_carry_implied_net_carry 1 1 0 1 _ H).
Defined.

(** X3: the baseline forward falls when the net carry rises and rises with
    the rate, strictly, for a positive spot and year fraction; with the
    rate equal to the net carry it is the spot. *)
Theorem forward_carry_monotone (s rr q rr' q' t : R) :
  0 < s -> 0 < t ->
  (forward_carry s rr q t < forward_carry s rr q' t <-> q' < q)
  /\ (forward_carry s rr q t < forward_carry s rr' q t <-> rr < rr')
  /\ forward_carry s q q t = s.
Proof.
  intros Hs Ht. unfold forward_carry, math_exp.
  assert (Hmono : forall a b, s * exp (a * t) < s * exp (b * t) <-> a < b).
  { intros a b. split; intros H.
    - assert (He : exp (a * t) < exp (b * t)) by nra.
      apply exp_lt_inv in He. nra.
    - assert (He : exp (a * t) < exp (b * t)) by (apply exp_increasing; nra).
      nra. }
  split; [| split].
  - rewrite Hmono. split; intros; lra.
  - rewrite Hmono. split; intros; lra.
  - replace ((q - q) * t) with 0 by lra. rewrite exp_0. lra.
Qed.

Lemma forward_carry_monotone_witness :
  0 < 100 /\ 0 < 0.5
  /\ (forward_carry 100 0.03 0.02 0.5 < forward_carry 100 0.03 0.01 0.5 <-> 0.01 < 0.02).
Proof.
  split; [lra | split; [lra |]].
  apply (forward_carry_monotone 100 0.03 0.02 0.03 0.01 0.5); lra.
Defined.

(** X4: the parity forward lies above the strike exactly when the call is
    worth more than the put, below it exactly when it is worth less, and is
    the strike when the two prices are equal, whatever the rate and the
    year fraction. *)
Theorem parity_forward_vs_strike (K C P rr t : R) :
  (K < forward_from_put_call_parity K C P rr t <-> P < C)
  /\ (forward_from_put_call_parity K C P rr t < K <-> C < P)
  /\ (forward_from_put_call_parity K C P rr t = K <-> C = P).
Proof.
  unfold forward_from_put_call_parity, math_exp.
  pose proof (exp_pos (rr * t)) as He.
  repeat split; intros H; nra.
Qed.

(** * Further properties of the validator and the engine *)

(** X5: the checks run in a fixed order and the first that fails decides
    the message: the spot message whenever the spot is not positive; the
    strike message when the spot is positive and the strike is not; and so
    on through year fraction, call, put and the both-or-neither check. *)
Theorem validate_inputs_first_failure (x : EquityForwardIPVInputs) :
  let neg (o : option R) := exists v, o = Some v /\ v < 0 in
  (validate_inputs x = Raise (ValueError "spot must be > 0") <-> x.(spot) <= 0)
  /\ (validate_inputs x = Raise (ValueError "strike must be > 0")
      <-> 0 < x.(spot) /\ x.(strike) <= 0)
  /\ (validate_inputs x = Raise (ValueError "T must be > 0")
      <-> 0 < x.(spot) /\ 0 < x.(strike) /\ x.(T) <= 0)
  /\ (validate_inputs x = Raise (ValueError "call must be >= 0")
      <-> 0 < x.(spot) /\ 0 < x.(strike) /\ 0 < x.(T) /\ neg x.(call))
  /\ (validate_inputs x = Raise (ValueError "put must be >= 0")
      <-> 0 < x.(spot) /\ 0 < x.(strike) /\ 0 < x.(T)
          /\ ~ neg x.(call) /\ neg x.(put))
  /\ (validate_inputs x
      = Raise (ValueError "provide both call and put (same K,T), or neither")
      <-> 0 < x.(spot) /\ 0 < x.(strike) /\ 0 < x.(T)
          /\ ~ neg x.(call) /\ ~ neg x.(put) /\ exactly_one x.(call) x.(put)).
Proof.
  intros neg. unfold validate_inputs.
  pose proof (fle_true (spot x) 0) as S1. pose proof (fle_false (spot x) 0) as S0.
  pose proof (fle_true (strike x) 0) as K1. pose proof (fle_false (strike x) 0) as K0.
  pose proof (fle_true (T x) 0) as T1. pose proof (fle_false (T x) 0) as T0.
  pose proof (present_and_negative_true (call x)) as C1.
  pose proof (present_and_negative_true (put x)) as P1.
  pose proof (xorb_is_None (call x) (put x)) as X1.
  fold (neg (call x)) in C1. fold (neg (put x)) in P1.
  destruct (fle (spot x) 0).
  { assert (spot x <= 0) by tauto.
    repeat split; intros; try reflexivity; try tauto; try lra; try discriminate. }
  assert (0 < spot x) by tauto.
  destruct (fle (strike x) 0).
  { assert (strike x <= 0) by tauto.
    repeat split; intros; try reflexivity; try tauto; try lra; try discriminate. }
  assert (0 < strike x) by tauto.
  destruct (fle (T x) 0).
  { assert (T x <= 0) by tauto.
    repeat split; intros; try reflexivity; try tauto; try lra; try discriminate. }
  assert (0 < T x) by tauto.
  destruct (present_and_negative (call x)).
  { assert (neg (call x)) by tauto.
    repeat split; intros; try reflexivity; try tauto; try lra; try discriminate. }
  assert (~ neg (call x)) by (intros Hn; apply C1 in Hn; discriminate).
  destruct (present_and_negative (put x)).
  { assert (neg (put x)) by tauto.
    repeat split; intros; try reflexivity; try tauto; try lra; try discriminate. }
  assert (~ neg (put x)) by (intros Hn; apply P1 in Hn; discriminate).
  destruct (xorb (is_None (call x)) (is_None (put x))).
  { assert (exactly_one (call x) (put x)) by tauto.
    repeat split; intros; try reflexivity; try tauto; try lra; try discriminate. }
  assert (~ exactly_one (call x) (put x)) by (intros Hn; apply X1 in Hn; discriminate).
  repeat split; intros; try tauto; try lra; try discriminate.
Qed.

(** X6: validation comes first, and a report tells what it was computed
    from.  A rejected input makes [run_ipv_check] raise the validator's
    error unchanged.  Whenever [run_ipv_check] returns a report, the input
    was accepted by the validator; the status is N/A exactly when neither
    option price was supplied, and PASS or FAIL exactly when both were. *)
Theorem report_only_for_valid_input
    (x : EquityForwardIPVInputs) (ta tb tq : R) (rd : Z) :
  (forall e, validate_inputs x = Raise e -> run_ipv_check x ta tb tq rd = Raise e)
  /\ (rejected x -> exists msg, run_ipv_check x ta tb tq rd = Raise (ValueError msg))
  /\ (forall rep, run_ipv_check x ta tb tq rd = Ok rep ->
        validate_inputs x = Ok tt
        /\ ~ rejected x
        /\ (rep.(status) = status_na <-> x.(call) = None /\ x.(put) = None)
        /\ (rep.(status) = status_pass \/ rep.(status) = status_fail
            <-> exists c p, x.(call) = Some c /\ x.(put) = Some p)).
Proof.
  assert (Hraise : forall e, validate_inputs x = Raise e ->
                             run_ipv_check x ta tb tq rd = Raise e).
  { intros e He. unfold run_ipv_check. rewrite He. reflexivity. }
  split; [exact Hraise |].
  split.
  - intros Hr. destruct (validate_inputs_raises x Hr) as [msg Hmsg].
    exists msg. apply Hraise. exact Hmsg.
  - intros rep Hrep.
    destruct (validate_inputs x) as [[] | e] eqn:Hv.
    2:{ rewrite (Hraise e eq_refl) in Hrep. discriminate Hrep. }
    split; [reflexivity |].
    split.
    { intros Hr. destruct (validate_inputs_raises x Hr) as [msg Hmsg]. congruence. }
    destruct (validate_inputs_ok_inv x Hv) as (_ & _ & _ & _ & _ & Hn).
    destruct (call x) as [c|] eqn:Hc.
    + destruct (put x) as [p|] eqn:Hp; [| discriminate Hn].
      rewrite (run_ipv_check_evaluated x c p ta tb tq rd Hv Hc Hp) in Hrep.
      injection Hrep as <-. cbn [status evaluated_report].
      split.
      * split; [| intros [H _]; discriminate H].
        destruct (verdict x c p ta tb); discriminate.
      * split; [intros _; exists c, p; split; reflexivity |].
        intros _. destruct (verdict x c p ta tb); [left | right]; reflexivity.
    + destruct (put x) as [p|] eqn:Hp; [discriminate Hn |].
      rewrite (run_ipv_check_no_options x ta tb tq rd Hv Hc) in Hrep.
      injection Hrep as <-. cbn [status initial_report].
      split.
      * split; [intros _; split; reflexivity | reflexivity].
      * split; [intros [H | H]; discriminate H |].
        intros (c & p & H & _). discriminate H.
Qed.

Lemma q_implied_some (x : EquityForwardIPVInputs) (c p q : R) :
  q_implied x c p = Some q ->
  0 < f_parity x c p /\ q = x.(r) - ln (f_parity x c p / x.(spot)) / x.(T).
Proof.
  unfold q_implied, q_solution.
  destruct (fle (f_parity x c p) 0) eqn:E; [discriminate |].
  apply fle_false in E. intros H. injection H as <-. split; [exact E | reflexivity].
Qed.

(** X7: in the report of a validated input with both prices, the implied
    net carry, its percentage and the carry gap are absent exactly when the
    market-implied forward [strike + exp(r*T)*(call - put)] is not
    positive; otherwise the implied carry is
    [r - ln(f_market / spot) / T]. *)
Theorem implied_carry_absent_iff_forward_nonpositive
    (x : EquityForwardIPVInputs) (c p ta tb tq : R) (rd : Z) :
  validate_inputs x = Ok tt -> x.(call) = Some c -> x.(put) = Some p ->
  let f_market := x.(strike) + exp (x.(r) * x.(T)) * (c - p) in
  exists rep,
    run_ipv_check x ta tb tq rd = Ok rep
    /\ (rep.(net_carry_implied) = None <-> f_market <= 0)
    /\ (rep.(net_carry_implied_pct) = None <-> f_market <= 0)
    /\ (rep.(net_carry_gap_bps) = None <-> f_market <= 0)
    /\ (0 < f_market ->
        rep.(net_carry_implied) = Some (x.(r) - ln (f_market / x.(spot)) / x.(T))).
Proof.
  intros Hv Hc Hp f_market.
  exists (evaluated_report x c p ta tb tq rd).
  split; [apply run_ipv_check_evaluated; assumption |].
  cbn [net_carry_implied net_carry_implied_pct net_carry_gap_bps evaluated_report].
  unfold q_implied, q_solution.
  change (f_parity x c p) with f_market.
  destruct (fle f_market 0) eqn:E; simpl.
  - apply fle_true in E.
    repeat split; intros; try reflexivity; try assumption; lra.
  - apply fle_false in E.
    repeat split; intros; try reflexivity; try discriminate; lra.
Qed.

Lemma implied_carry_absent_iff_forward_nonpositive_witness :
  validate_inputs example_inputs = Ok tt
  /\ example_inputs.(call) = Some 5.20
  /\ example_inputs.(put) = Some 4.80
  /\ exists rep,
       run_ipv_check example_inputs 0.20 5.0 50.0 6 = Ok rep
       /\ (rep.(net_carry_implied) = None
           <-> example_inputs.(strike)
               + exp (example_inputs.(r) * example_inputs.(T)) * (5.20 - 4.80) <= 0).
Proof.
  split; [exact example_inputs_valid | split; [reflexivity | split; [reflexivity |]]].
  destruct (implied_carry_absent_iff_forward_nonpositive example_inputs 5.20 4.80
              0.20 5.0 50.0 6 example_inputs_valid eq_refl eq_refl)
    as (rep & Hrun & Hnone & _).
  exists rep. split; assumption.
Defined.

(** X8: when the implied net carry is present, it exceeds the input net
    carry exactly when the market-implied forward is below the baseline
    (negative spread), is below it exactly when the spread is positive, and
    equals it exactly when the spread is zero: the sign of the carry gap is
    the opposite of the sign of the spread. *)
Theorem carry_gap_sign_opposes_spread
    (x : EquityForwardIPVInputs) (c p ta tb tq : R) (rd : Z) :
  validate_inputs x = Ok tt -> x.(call) = Some c -> x.(put) = Some p ->
  exists rep,
    run_ipv_check x ta tb tq rd = Ok rep
    /\ forall q, rep.(net_carry_implied) = Some q ->
         (x.(net_carry) < q <-> f_parity x c p - f_carry x < 0)
         /\ (q < x.(net_carry) <-> 0 < f_parity x c p - f_carry x)
         /\ (q = x.(net_carry) <-> f_parity x c p - f_carry x = 0).
Proof.
  intros Hv Hc Hp.
  destruct (validate_inputs_ok_inv x Hv) as (Hs & _ & Ht & _).
  exists (evaluated_report x c p ta tb tq rd).
  split; [apply run_ipv_check_evaluated; assumption |].
  cbn [net_carry_implied evaluated_report].
  intros q Hq. apply q_implied_some in Hq. destruct Hq as [HF ->].
  set (F := f_parity x c p) in *.
  set (d := r x - net_carry x).
  assert (Hratio : 0 < F / spot x) by (apply Rdiv_lt_0_compat; assumption).
  set (L := ln (F / spot x)).
  assert (HL : L = L / T x * T x) by (field; lra).
  assert (Hcarry : f_carry x = spot x * exp (d * T x)) by reflexivity.
  assert (HFs : F = F / spot x * spot x) by (field; lra).
  pose proof (exp_pos (d * T x)) as He.
  assert (Hlt : L < d * T x <-> F < f_carry x).
  { unfold L. rewrite (ln_lt_exp _ _ Hratio). rewrite Hcarry. split; intros H; nra. }
  assert (Hgt : d * T x < L <-> f_carry x < F).
  { split; intros H.
    - assert (H' : exp (d * T x) < exp L) by (apply exp_increasing; exact H).
      unfold L in H'. rewrite exp_ln in H' by exact Hratio. rewrite Hcarry. nra.
    - assert (H' : exp (d * T x) < F / spot x) by (rewrite Hcarry in H; nra).
      rewrite <- (exp_ln _ Hratio) in H'. apply exp_lt_inv in H'. exact H'. }
  assert (Hq1 : net_carry x < r x - L / T x <-> L < d * T x).
  { unfold d. split; intros H; nra. }
  assert (Hq2 : r x - L / T x < net_carry x <-> d * T x < L).
  { unfold d. split; intros H; nra. }
  split; [| split].
  - rewrite Hq1, Hlt. split; intros; lra.
  - rewrite Hq2, Hgt. split; intros; lra.
  - split; intros H.
    + destruct (Rtotal_order F (f_carry x)) as [H1 | [H1 | H1]]; [| lra |].
      * apply Hlt in H1. apply Hq1 in H1. lra.
      * apply Hgt in H1. apply Hq2 in H1. lra.
    + destruct (Rtotal_order (r x - L / T x) (net_carry x)) as [H1 | [H1 | H1]];
        [| exact H1 |].
      * apply Hq2 in H1. apply Hgt in H1. lra.
      * apply Hq1 in H1. apply Hlt in H1. lra.
Qed.

Lemma carry_gap_sign_opposes_spread_witness :
  validate_inputs example_inputs = Ok tt
  /\ example_inputs.(call) = Some 5.20
  /\ example_inputs.(put) = Some 4.80
  /\ exists rep,
       run_ipv_check example_inputs 0.20 5.0 50.0 6 = Ok rep
       /\ forall q, rep.(net_carry_implied) = Some q ->
            (example_inputs.(net_carry) < q
             <-> f_parity example_inputs 5.20 4.80 - f_carry example_inputs < 0).
Proof.
  split; [exact example_inputs_valid | split; [reflexivity | split; [reflexivity |]]].
  destruct (carry_gap_sign_opposes_spread example_inputs 5.20 4.80 0.20 5.0 50.0 6
              example_inputs_valid eq_refl eq_refl) as (rep & Hrun & Hq).
  exists rep. split; [exact Hrun |].
  intros q Hsome. exact (proj1 (Hq q Hsome)).
Defined.

Lemma at_parity_inputs_valid : validate_inputs at_parity_inputs = Ok tt.
Proof. not_rejected. Qed.

Lemma at_parity_spread : spread at_parity_inputs 5 5 = 0.
Proof.
  unfold spread, f_parity, f_carry. simpl.
  replace (0 * 1) with 0 by lra. replace ((0 - 0) * 1) with 0 by lra.
  rewrite exp_0. lra.
Qed.

Lemma tol_effective_nonneg (x : EquityForwardIPVInputs) (ta tb : R) :
  0 < x.(spot) -> 0 <= tol_effective x ta tb.
Proof.
  intros Hs. pose proof (f_carry_pos x Hs) as Hf.
  pose proof (Rabs_pos tb) as Hb.
  unfold tol_effective.
  eapply Rle_trans; [| apply Rmax_r]. nra.
Qed.

Lemma tol_effective_monotone (x : EquityForwardIPVInputs) (ta tb ta' tb' : R) :
  0 < x.(spot) -> ta <= ta' -> Rabs tb <= Rabs tb' ->
  tol_effective x ta tb <= tol_effective x ta' tb'.
Proof.
  intros Hs Ha Hb. pose proof (f_carry_pos x Hs) as Hf.
  unfold tol_effective. apply Rmax_lub.
  - eapply Rle_trans; [exact Ha | apply Rmax_l].
  - eapply Rle_trans; [| apply Rmax_r]. nra.
Qed.

(** X9: loosening the tolerances never turns a PASS into a FAIL.  If a
    validated input with both prices passes under [tol_abs] and [tol_bps],
    it passes under every larger [tol_abs] and every [tol_bps] at least as
    large in absolute value (so also under [- tol_bps]), whatever the carry
    gap tolerance and the rounding, and then has no hints. *)
Theorem looser_tolerances_keep_pass
    (x : EquityForwardIPVInputs) (c p ta tb tq ta' tb' tq' : R) (rd rd' : Z)
    (rep : Report) :
  validate_inputs x = Ok tt -> x.(call) = Some c -> x.(put) = Some p ->
  run_ipv_check x ta tb tq rd = Ok rep -> rep.(status) = status_pass ->
  ta <= ta' -> Rabs tb <= Rabs tb' ->
  exists rep',
    run_ipv_check x ta' tb' tq' rd' = Ok rep'
    /\ rep'.(status) = status_pass
    /\ rep'.(pass_eff) = Some true
    /\ rep'.(root_cause_hints) = [].
Proof.
  intros Hv Hc Hp Hrun Hst Ha Hb.
  destruct (validate_inputs_ok_inv x Hv) as (Hs & _).
  rewrite (run_ipv_check_evaluated x c p ta tb tq rd Hv Hc Hp) in Hrun.
  injection Hrun as <-. cbn [status evaluated_report] in Hst.
  assert (Ev : verdict x c p ta tb = true).
  { destruct (verdict x c p ta tb); [reflexivity | discriminate Hst]. }
  apply verdict_true in Ev.
  assert (Ev' : verdict x c p ta' tb' = true).
  { apply verdict_true. eapply Rle_trans; [exact Ev |].
    apply tol_effective_monotone; assumption. }
  exists (evaluated_report x c p ta' tb' tq' rd').
  split; [apply run_ipv_check_evaluated; assumption |].
  simpl. unfold hints_for. rewrite Ev'. repeat split; reflexivity.
Qed.

Lemma looser_tolerances_keep_pass_witness :
  validate_inputs at_parity_inputs = Ok tt
  /\ at_parity_inputs.(call) = Some 5
  /\ at_parity_inputs.(put) = Some 5
  /\ run_ipv_check at_parity_inputs 0.20 5.0 50.0 6
     = Ok (evaluated_report at_parity_inputs 5 5 0.20 5.0 50.0 6)
  /\ (evaluated_report at_parity_inputs 5 5 0.20 5.0 50.0 6).(status) = status_pass
  /\ 0.20 <= 0.5 /\ Rabs 5.0 <= Rabs (-10)
  /\ exists rep',
       run_ipv_check at_parity_inputs 0.5 (-10) 50.0 6 = Ok rep'
       /\ rep'.(status) = status_pass.
Proof.
  assert (Hrun : run_ipv_check at_parity_inputs 0.20 5.0 50.0 6
                 = Ok (evaluated_report at_parity_inputs 5 5 0.20 5.0 50.0 6)).
  { apply run_ipv_check_evaluated;
      [exact at_parity_inputs_valid | reflexivity | reflexivity]. }
  assert (Hst : (evaluated_report at_parity_inputs 5 5 0.20 5.0 50.0 6).(status)
                = status_pass).
  { cbn [status evaluated_report].
    assert (Ev : verdict at_parity_inputs 5 5 0.20 5.0 = true).
    { apply verdict_true. rewrite at_parity_spread, Rabs_R0.
      apply tol_effective_nonneg. simpl. lra. }
    rewrite Ev. reflexivity. }
  assert (Hb : Rabs 5.0 <= Rabs (-10)).
  { rewrite (Rabs_pos_eq 5.0) by lra. rewrite (Rabs_left (-10)) by lra. lra. }
  split; [exact at_parity_inputs_valid |].
  split; [reflexivity | split; [reflexivity |]].
  split; [exact Hrun | split; [exact Hst |]].
  split; [lra | split; [exact Hb |]].
  destruct (looser_tolerances_keep_pass at_parity_inputs 5 5 0.20 5.0 50.0 0.5 (-10) 50.0
              6 6 _ at_parity_inputs_valid eq_refl eq_refl Hrun Hst ltac:(lra) Hb)
    as (rep' & Hrun' & Hst' & _).
  exists rep'. split; assumption.
Defined.

(** X10: an exact match always passes.  When the market-implied forward
    equals the baseline forward, the status is PASS and there are no hints
    for every choice of tolerances, negative ones included: the relative
    band [|tol_bps| * f_baseline / 10000] is never negative. *)
Theorem zero_spread_always_passes
    (x : EquityForwardIPVInputs) (c p ta tb tq : R) (rd : Z) :
  validate_inputs x = Ok tt -> x.(call) = Some c -> x.(put) = Some p ->
  x.(strike) + exp (x.(r) * x.(T)) * (c - p)
  = x.(spot) * exp ((x.(r) - x.(net_carry)) * x.(T)) ->
  exists rep,
    run_ipv_check x ta tb tq rd = Ok rep
    /\ rep.(status) = status_pass
    /\ rep.(root_cause_hints) = []
    /\ rep.(net_carry_implied) = Some x.(net_carry)
    /\ exists e, rep.(tolerances).(tol_eff) = Some e /\ 0 <= e.
Proof.
  intros Hv Hc Hp Heq.
  destruct (validate_inputs_ok_inv x Hv) as (Hs & _ & Ht & _).
  pose proof (f_carry_pos x Hs) as Hf.
  assert (Hsp : spread x c p = 0).
  { unfold spread, f_parity, f_carry. rewrite Heq. lra. }
  assert (Ev : verdict x c p ta tb = true).
  { apply verdict_true. rewrite Hsp, Rabs_R0. apply tol_effective_nonneg. exact Hs. }
  exists (evaluated_report x c p ta tb tq rd).
  split; [apply run_ipv_check_evaluated; assumption |].
  simpl. unfold hints_for. rewrite Ev.
  split; [reflexivity | split; [reflexivity |]].
  split.
  - unfold q_implied, q_solution.
    assert (HF : f_parity x c p = f_carry x) by (unfold spread in Hsp; lra).
    rewrite HF.
    assert (E : fle (f_carry x) 0 = false) by (apply fle_false; exact Hf).
    rewrite E. do 2 f_equal. unfold f_carry.
    replace (spot x * exp ((r x - net_carry x) * T x) / spot x)
      with (exp ((r x - net_carry x) * T x)) by (field; lra).
    rewrite ln_exp. field. lra.
  - eexists. split; [reflexivity | apply tol_effective_nonneg; exact Hs].
Qed.

Lemma zero_spread_always_passes_witness :
  validate_inputs at_parity_inputs = Ok tt
  /\ at_parity_inputs.(call) = Some 5
  /\ at_parity_inputs.(put) = Some 5
  /\ at_parity_inputs.(strike)
     + exp (at_parity_inputs.(r) * at_parity_inputs.(T)) * (5 - 5)
     = at_parity_inputs.(spot)
       * exp ((at_parity_inputs.(r) - at_parity_inputs.(net_carry)) * at_parity_inputs.(T))
  /\ exists rep,
       run_ipv_check at_parity_inputs (-1) 0 50.0 6 = Ok rep
       /\ rep.(status) = status_pass.
Proof.
  assert (Heq : at_parity_inputs.(strike)
                + exp (at_parity_inputs.(r) * at_parity_inputs.(T)) * (5 - 5)
                = at_parity_inputs.(spot)
                  * exp ((at_parity_inputs.(r) - at_parity_inputs.(net_carry))
                         * at_parity_inputs.(T))).
  { pose proof at_parity_spread as H. unfold spread, f_parity, f_carry in H. lra. }
  split; [exact at_parity_inputs_valid |].
  split; [reflexivity | split; [reflexivity | split; [exact Heq |]]].
  destruct (zero_spread_always_passes at_parity_inputs 5 5 (-1) 0 50.0 6
              at_parity_inputs_valid eq_refl eq_refl Heq) as (rep & Hrun & Hst & _).
  exists rep. split; assumption.
Defined.

(** X11: when the relative band is the looser one
    ([tol_abs <= |tol_bps| * f_baseline / 10000]), the verdict is a test in
    basis points of the baseline forward: PASS exactly when the spread in
    bps of the baseline, before rounding, is at most [|tol_bps|] in absolute
    value. *)
Theorem relative_band_is_bps_test
    (x : EquityForwardIPVInputs) (c p ta tb tq : R) (rd : Z) :
  validate_inputs x = Ok tt -> x.(call) = Some c -> x.(put) = Some p ->
  ta <= Rabs tb * f_carry x / 10000 ->
  exists rep,
    run_ipv_check x ta tb tq rd = Ok rep
    /\ rep.(tolerances).(tol_eff) = Some (Rabs tb * f_carry x / 10000)
    /\ (rep.(status) = status_pass
        <-> Rabs ((f_parity x c p - f_carry x) / f_carry x * 10000) <= Rabs tb).
Proof.
  intros Hv Hc Hp Hband.
  destruct (validate_inputs_ok_inv x Hv) as (Hs & _).
  pose proof (f_carry_pos x Hs) as Hf.
  assert (Htol : tol_effective x ta tb = Rabs tb * f_carry x / 10000).
  { unfold tol_effective. apply Rmax_right. exact Hband. }
  assert (Hbps : Rabs ((f_parity x c p - f_carry x) / f_carry x * 10000)
                 = Rabs (spread x c p) / f_carry x * 10000).
  { fold (spread x c p). unfold Rdiv. rewrite !Rabs_mult.
    rewrite (Rabs_pos_eq (/ f_carry x)) by (left; apply Rinv_0_lt_compat; exact Hf).
    rewrite (Rabs_pos_eq 10000) by lra. reflexivity. }
  assert (Hiff : Rabs (spread x c p) <= Rabs tb * f_carry x / 10000
                 <-> Rabs (spread x c p) / f_carry x * 10000 <= Rabs tb).
  { assert (Hid : Rabs (spread x c p)
                  = Rabs (spread x c p) / f_carry x * f_carry x) by (field; lra).
    set (a := Rabs (spread x c p)) in *. set (u := a / f_carry x) in *.
    split; intros H; nra. }
  exists (evaluated_report x c p ta tb tq rd).
  split; [apply run_ipv_check_evaluated; assumption |].
  cbn [status tolerances tol_eff evaluated_report].
  rewrite Htol, Hbps, <- Hiff, <- Htol.
  split; [reflexivity |].
  destruct (verdict x c p ta tb) eqn:Ev.
  - apply verdict_true in Ev. split; [intros _; exact Ev | reflexivity].
  - apply verdict_false in Ev. split; [discriminate | intros H; lra].
Qed.

Lemma relative_band_is_bps_test_witness :
  validate_inputs example_inputs = Ok tt
  /\ example_inputs.(call) = Some 5.20
  /\ example_inputs.(put) = Some 4.80
  /\ 0 <= Rabs 5.0 * f_carry example_inputs / 10000
  /\ exists rep,
       run_ipv_check example_inputs 0 5.0 50.0 6 = Ok rep
       /\ rep.(tolerances).(tol_eff) = Some (Rabs 5.0 * f_carry example_inputs / 10000).
Proof.
  assert (Hband : 0 <= Rabs 5.0 * f_carry example_inputs / 10000).
  { pose proof (f_carry_pos example_inputs) as Hf. simpl in Hf.
    rewrite (Rabs_pos_eq 5.0) by lra.
    assert (0 < f_carry example_inputs) by (apply Hf; lra). lra. }
  split; [exact example_inputs_valid |].
  split; [reflexivity | split; [reflexivity | split; [exact Hband |]]].
  destruct (relative_band_is_bps_test example_inputs 5.20 4.80 0 5.0 50.0 6
              example_inputs_valid eq_refl eq_refl Hband) as (rep & Hrun & Htol & _).
  exists rep. split; assumption.
Defined.

Lemma without_options_valid (x : EquityForwardIPVInputs) :
  validate_inputs x = Ok tt -> validate_inputs (without_options x) = Ok tt.
Proof.
  intros Hv. destruct (validate_inputs_ok_inv x Hv) as (Hs & Hk & Ht & _).
  apply validate_inputs_accepts. unfold rejected, exactly_one, without_options. simpl.
  intros [H | [H | [H | [[c [H _]] | [[p [H _]] | [[_ H] | [H _]]]]]]];
    try lra; try discriminate; apply H; reflexivity.
Qed.

(** X12: supplying option prices changes nothing in the part of the report
    that does not depend on them.  A validated input and the same input
    without its option prices get reports with the same baseline forward,
    input net carry and its percentage, pass-rule text, configured
    tolerances and assumptions. *)
Theorem options_leave_baseline_block
    (x : EquityForwardIPVInputs) (ta tb tq : R) (rd : Z) :
  validate_inputs x = Ok tt ->
  exists rep rep0,
    run_ipv_check x ta tb tq rd = Ok rep
    /\ run_ipv_check (without_options x) ta tb tq rd = Ok rep0
    /\ rep0.(status) = status_na
    /\ rep.(baseline_forward) = rep0.(baseline_forward)
    /\ rep.(net_carry_input) = rep0.(net_carry_input)
    /\ rep.(net_carry_input_pct) = rep0.(net_carry_input_pct)
    /\ rep.(pass_rule) = rep0.(pass_rule)
    /\ rep.(tolerances).(tol_abs) = rep0.(tolerances).(tol_abs)
    /\ rep.(tolerances).(tol_bps) = rep0.(tolerances).(tol_bps)
    /\ rep.(tolerances).(tol_q_gap_bps) = rep0.(tolerances).(tol_q_gap_bps)
    /\ rep.(assumptions) = rep0.(assumptions).
Proof.
  intros Hv.
  pose proof (without_options_valid x Hv) as Hv0.
  pose proof (run_ipv_check_no_options (without_options x) ta tb tq rd Hv0 eq_refl) as H0.
  destruct (validate_inputs_ok_inv x Hv) as (_ & _ & _ & _ & _ & Hn).
  destruct (call x) as [c|] eqn:Hc.
  - destruct (put x) as [p|] eqn:Hp; [| discriminate Hn].
    exists (evaluated_report x c p ta tb tq rd),
      (initial_report (without_options x) (f_carry (without_options x)) ta tb tq rd).
    split; [apply run_ipv_check_evaluated; assumption |].
    split; [exact H0 |].
    repeat split; reflexivity.
  - exists (initial_report x (f_carry x) ta tb tq rd),
      (initial_report (without_options x) (f_carry (without_options x)) ta tb tq rd).
    split; [apply run_ipv_check_no_options; assumption |].
    split; [exact H0 |].
    repeat split; reflexivity.
Qed.

Lemma options_leave_baseline_block_witness :
  validate_inputs example_inputs = Ok tt
  /\ exists rep rep0,
       run_ipv_check example_inputs 0.20 5.0 50.0 6 = Ok rep
       /\ run_ipv_check (without_options example_inputs) 0.20 5.0 50.0 6 = Ok rep0
       /\ rep0.(status) = status_na
       /\ rep.(baseline_forward) = rep0.(baseline_forward).
Proof.
  split; [exact example_inputs_valid |].
  destruct (options_leave_baseline_block example_inputs 0.20 5.0 50.0 6
              example_inputs_valid) as (rep & rep0 & H1 & H2 & H3 & H4 & _).
  exists rep, rep0. repeat split; assumption.
Defined.

(** * Further properties of the reporter *)

Lemma header_lines_no_hint_line
    (fmt_fixed : R -> nat -> string) (str_float : R -> string) (rep : Report) (h : string) :
  ~ In ("- " ++ h)%string (header_lines fmt_fixed str_float rep).
Proof.
  unfold header_lines, append.
  destruct (net_carry_gap_bps rep) as [g|];
    destruct (str_truthy (pass_rule rep));
    rewrite !in_app_iff; simpl;
    intros H; decompose [or] H; clear H;
    try contradiction; congruence.
Qed.

(** X13: the hints block shows a prefix of the hint list.  For a report with
    at least one hint, the lines after the header are a blank line, the
    title, the first [max(0, top_hints)] hints in their order, each after a
    dash, and the closing rule.  With [top_hints <= 0] the title is still
    printed, with no hint under it; with [top_hints] at least the number of
    hints, all of them are printed. *)
Theorem reporter_renders_prefix
    (fmt_fixed : R -> nat -> string) (str_float : R -> string)
    (rep : Report) (top_hints : Z) :
  rep.(root_cause_hints) <> [] ->
  let dash := fun h => ("- " ++ h)%string in
  report_lines fmt_fixed str_float rep top_hints
  = header_lines fmt_fixed str_float rep
      ++ [""%string; "Next checks        :"%string]
      ++ map dash (firstn (Z.to_nat top_hints) rep.(root_cause_hints))
      ++ [repeat_string "=" 40]
  /\ ((top_hints <= 0)%Z ->
      report_lines fmt_fixed str_float rep top_hints
      = header_lines fmt_fixed str_float rep
          ++ [""%string; "Next checks        :"%string; repeat_string "=" 40])
  /\ ((Z.of_nat (List.length rep.(root_cause_hints)) <= top_hints)%Z ->
      report_lines fmt_fixed str_float rep top_hints
      = header_lines fmt_fixed str_float rep
          ++ [""%string; "Next checks        :"%string]
          ++ map dash rep.(root_cause_hints)
          ++ [repeat_string "=" 40])
  /\ List.length (report_lines fmt_fixed str_float rep top_hints)
     = (List.length (header_lines fmt_fixed str_float rep) + 3
        + Nat.min (Z.to_nat top_hints) (List.length rep.(root_cause_hints)))%nat.
Proof.
  intros Hne dash.
  destruct (root_cause_hints rep) as [| h hs] eqn:Hh; [contradiction |].
  pose proof (report_lines_hints fmt_fixed str_float rep top_hints h hs Hh) as Hl.
  unfold slice_to, next_checks_title in Hl.
  assert (Hmax : Z.to_nat (Z.max 0 top_hints) = Z.to_nat top_hints) by lia.
  rewrite Hmax in Hl. fold dash in Hl.
  split; [exact Hl |].
  split; [| split].
  - intros Hle. rewrite Hl.
    replace (Z.to_nat top_hints) with 0%nat by lia. reflexivity.
  - intros Hge. rewrite Hl. rewrite firstn_all2 by lia. reflexivity.
  - rewrite Hl. rewrite !length_app, length_map, length_firstn. simpl. lia.
Qed.

Lemma reporter_renders_prefix_witness :
  six_hint_report.(root_cause_hints) <> []
  /\ report_lines fmt_stub str_stub six_hint_report 0
     = header_lines fmt_stub str_stub six_hint_report
         ++ [""%string; "Next checks        :"%string; repeat_string "=" 40].
Proof.
  assert (Hne : six_hint_report.(root_cause_hints) <> []) by discriminate.
  split; [exact Hne |].
  apply (proj1 (proj2 (reporter_renders_prefix fmt_stub str_stub six_hint_report 0 Hne))).
  lia.
Defined.

(** X14: the engine and the reporter composed, with the default
    [top_hints = 3].  For a validated input the text of a FAIL report lists
    exactly the timestamp, conventions and directional hints; a PASS or N/A
    report has no hints block; and the carry, not-available, settlement and
    bid/ask hints are never shown at this default. *)
Theorem default_report_shows_three_hints
    (fmt_fixed : R -> nat -> string) (str_float : R -> string)
    (x : EquityForwardIPVInputs) (ta tb tq : R) (rd : Z) :
  validate_inputs x = Ok tt ->
  exists rep,
    run_ipv_check x ta tb tq rd = Ok rep
    /\ (rep.(status) = status_fail ->
        exists c p,
          x.(call) = Some c /\ x.(put) = Some p
          /\ report_lines fmt_fixed str_float rep default_top_hints
             = header_lines fmt_fixed str_float rep
                 ++ [""; "Next checks        :";
                     "- " ++ hint_timestamp; "- " ++ hint_conventions;
                     "- " ++ (if flt (f_parity x c p - f_carry x) 0
                              then hint_lower else hint_higher);
                     repeat_string "=" 40]%string)
    /\ (rep.(status) <> status_fail ->
        report_lines fmt_fixed str_float rep default_top_hints
        = header_lines fmt_fixed str_float rep ++ [repeat_string "=" 40])
    /\ (forall h,
          In h [hint_carry_mismatch; hint_carry_unavailable;
                hint_settlement; hint_bid_ask] ->
          ~ In ("- " ++ h)%string
               (report_lines fmt_fixed str_float rep default_top_hints)).
Proof.
  intros Hv.
  assert (Hrule : forall h, ("- " ++ h)%string <> repeat_string "=" 40)
    by (intros h; simpl; discriminate).
  destruct (validate_inputs_ok_inv x Hv) as (_ & _ & _ & _ & _ & Hn).
  destruct (call x) as [c|] eqn:Hc.
  - destruct (put x) as [p|] eqn:Hp; [| discriminate Hn].
    exists (evaluated_report x c p ta tb tq rd).
    split; [apply run_ipv_check_evaluated; assumption |].
    assert (Hhints : root_cause_hints (evaluated_report x c p ta tb tq rd)
                     = hints_for x c p ta tb tq) by reflexivity.
    cbn [status evaluated_report]. unfold hints_for in Hhints.
    destruct (verdict x c p ta tb) eqn:Ev.
    + pose proof (report_lines_no_hints fmt_fixed str_float _ default_top_hints Hhints)
        as Hl.
      split; [discriminate |]. split; [intros _; exact Hl |].
      intros h _ Hin. rewrite Hl, in_app_iff in Hin. destruct Hin as [Hin | Hin].
      * exact (header_lines_no_hint_line _ _ _ _ Hin).
      * simpl in Hin. destruct Hin as [Hin | []]. exact (Hrule h (eq_sym Hin)).
    + pose proof (report_lines_hints fmt_fixed str_float _ default_top_hints _ _ Hhints)
        as Hl.
      change (slice_to _ default_top_hints)
        with [hint_timestamp; hint_conventions; directional_hint (spread x c p)] in Hl.
      unfold directional_hint, spread, next_checks_title in Hl.
      split; [intros _; exists c, p; split; [reflexivity | split; [reflexivity |]];
              exact Hl |].
      split; [intros H; exfalso; apply H; reflexivity |].
      intros h Hh Hin. rewrite Hl, in_app_iff in Hin. destruct Hin as [Hin | Hin].
      * exact (header_lines_no_hint_line _ _ _ _ Hin).
      * simpl in Hh, Hin.
        destruct (flt (f_parity x c p - f_carry x) 0);
          decompose [or] Hh; decompose [or] Hin; subst;
          try contradiction; try discriminate.
  - exists (initial_report x (f_carry x) ta tb tq rd).
    split; [apply run_ipv_check_no_options; assumption |].
    pose proof (report_lines_no_hints fmt_fixed str_float
                  (initial_report x (f_carry x) ta tb tq rd) default_top_hints eq_refl)
      as Hl.
    split; [discriminate |]. split; [intros _; exact Hl |].
    intros h _ Hin. rewrite Hl, in_app_iff in Hin. destruct Hin as [Hin | Hin].
    + exact (header_lines_no_hint_line _ _ _ _ Hin).
    + simpl in Hin. destruct Hin as [Hin | []]. exact (Hrule h (eq_sym Hin)).
Qed.

Lemma default_report_shows_three_hints_witness :
  validate_inputs example_inputs = Ok tt
  /\ exists rep,
       run_ipv_check example_inputs 0.20 5.0 50.0 6 = Ok rep
       /\ ~ In ("- " ++ hint_settlement)%string
              (report_lines fmt_stub str_stub rep default_top_hints).
Proof.
  split; [exact example_inputs_valid |].
  destruct (default_report_shows_three_hints fmt_stub str_stub example_inputs
              0.20 5.0 50.0 6 example_inputs_valid) as (rep & Hrun & _ & _ & Hnever).
  exists rep. split; [exact Hrun |].
  apply Hnever. simpl. tauto.
Defined.

(** X15: the text of a report without option prices.  For a validated input
    with no call the report has sixteen lines, for every [top_hints]: the
    banner, the N/A status, the rule, the baseline forward to three
    decimals, [N/A] for the market-implied forward, for the three spreads
    and for the implied carry, the tolerance clause [(N/A)] although
    [tol_abs] and [tol_bps] are set, the input carry in percent, no gap
    line and no hints block. *)
Theorem no_options_report_text
    (fmt_fixed : R -> nat -> string) (str_float : R -> string)
    (x : EquityForwardIPVInputs) (ta tb tq : R) (rd : Z) (top_hints : Z) :
  validate_inputs x = Ok tt -> x.(call) = None ->
  exists rep,
    run_ipv_check x ta tb tq rd = Ok rep
    /\ report_lines fmt_fixed str_float rep top_hints
       = [ repeat_string "=" 40;
           " EQUITY FORWARD IPV REPORT";
           repeat_string "=" 40;
           "STATUS            : N/A (no options provided)";
           "Rule              : |ΔF| <= tol_eff (tol_eff = max(tol_abs, tol_bps * F_carry / 10000))";
           "";
           "F_baseline (carry): "
             ++ fmt_fixed (py_round (x.(spot) * exp ((x.(r) - x.(net_carry)) * x.(T))) rd) 3%nat;
           "F_implied (parity): N/A";
           "";
           "ΔF (abs)          : N/A   (N/A)";
           "ΔF (bps vs F)     : N/A";
           "ΔF (bps vs S)     : N/A";
           "";
           "Net carry (input) : " ++ str_float (py_round (x.(net_carry) * 100) 3) ++ "%";
           "Net carry (impl.) : N/A";
           repeat_string "=" 40 ]%string.
Proof.
  intros Hv Hc.
  exists (initial_report x (f_carry x) ta tb tq rd).
  split; [apply run_ipv_check_no_options; assumption |].
  rewrite (report_lines_no_hints fmt_fixed str_float
             (initial_report x (f_carry x) ta tb tq rd) top_hints eq_refl).
  unfold header_lines, append, f_carry. cbn [initial_report tolerances tol_abs tol_bps
    tol_eff status pass_rule baseline_forward market_implied_forward abs_spread
    rel_spread_bps_vs_fbase rel_spread_bps_vs_spot net_carry_input_pct
    net_carry_implied_pct net_carry_gap_bps fmt_num].
  reflexivity.
Qed.

Lemma no_options_report_text_witness :
  validate_inputs example_no_options = Ok tt
  /\ example_no_options.(call) = None
  /\ exists rep,
       run_ipv_check example_no_options 0.20 5.0 50.0 6 = Ok rep
       /\ List.length (report_lines fmt_stub str_stub rep 3) = 16%nat.
Proof.
  split; [exact example_no_options_valid | split; [reflexivity |]].
  destruct (no_options_report_text fmt_stub str_stub example_no_options 0.20 5.0 50.0 6 3
              example_no_options_valid eq_refl) as (rep & Hrun & Hl).
  exists rep. split; [exact Hrun |]. rewrite Hl. reflexivity.
Defined.

(** X16: the gap line.  The header ends with a line for the carry gap
    exactly when the report has one; a gap that is zero or positive is
    printed with a leading plus sign, a negative one as the formatter prints
    it; without a gap the header ends with the implied-carry line. *)
Theorem gap_line_sign
    (fmt_fixed : R -> nat -> string) (str_float : R -> string) (rep : Report) :
  (forall g, rep.(net_carry_gap_bps) = Some g -> 0 <= g ->
     last (header_lines fmt_fixed str_float rep) ""%string
     = ("Δq (bps)          : +" ++ fmt_fixed g 1%nat)%string)
  /\ (forall g, rep.(net_carry_gap_bps) = Some g -> g < 0 ->
     last (header_lines fmt_fixed str_float rep) ""%string
     = ("Δq (bps)          : " ++ fmt_fixed g 1%nat)%string)
  /\ (rep.(net_carry_gap_bps) = None ->
     last (header_lines fmt_fixed str_float rep) ""%string
     = ("Net carry (impl.) : "
          ++ match rep.(net_carry_implied_pct) with
             | None => "N/A"
             | Some v => fmt_fixed v 3%nat ++ "%"
             end)%string).
Proof.
  unfold header_lines, append.
  split; [| split].
  - intros g Hg Hpos. rewrite Hg. rewrite last_last.
    assert (E : fge g 0 = true) by (apply fge_true; exact Hpos).
    rewrite E. reflexivity.
  - intros g Hg Hneg. rewrite Hg. rewrite last_last.
    assert (E : fge g 0 = false) by (apply fle_false; exact Hneg).
    rewrite E. reflexivity.
  - intros Hg. rewrite Hg. rewrite last_last. reflexivity.
Qed.

Lemma gap_line_sign_witness :
  six_hint_report.(net_carry_gap_bps) = Some 119 /\ 0 <= 119
  /\ last (header_lines fmt_stub str_stub six_hint_report) ""%string
     = ("Δq (bps)          : +" ++ fmt_stub 119 1)%string.
Proof.
  split; [reflexivity | split; [lra |]].
  apply (proj1 (gap_line_sign fmt_stub str_stub six_hint_report) 119 eq_refl).
  lra.
Defined.

(** * Further properties of the reported numbers *)

Lemma Rabs_bound (a e : R) : Rabs a <= e -> - e <= a <= e.
Proof.
  intros H. unfold Rabs in H. destruct (Rcase_abs a); lra.
Qed.

(** X17: the three rounded forwards of a report need not add up, but nearly
    do: the reported spread differs from the reported market-implied
    forward minus the reported baseline forward by at most one and a half
    units of the last kept decimal. *)
Theorem reported_spread_nearly_consistent
    (x : EquityForwardIPVInputs) (c p ta tb tq : R) (rd : Z) :
  validate_inputs x = Ok tt -> x.(call) = Some c -> x.(put) = Some p ->
  exists rep m b d,
    run_ipv_check x ta tb tq rd = Ok rep
    /\ rep.(market_implied_forward) = Some m
    /\ rep.(baseline_forward) = Some b
    /\ rep.(abs_spread) = Some d
    /\ Rabs (d - (m - b)) <= 3 / 2 / powerRZ 10 rd.
Proof.
  intros Hv Hc Hp.
  exists (evaluated_report x c p ta tb tq rd),
    (py_round (f_parity x c p) rd), (py_round (f_carry x) rd),
    (py_round (spread x c p) rd).
  split; [apply run_ipv_check_evaluated; assumption |].
  split; [reflexivity | split; [reflexivity | split; [reflexivity |]]].
  pose proof (pow10_pos rd) as HP.
  pose proof (Rabs_bound _ _ (py_round_error (f_parity x c p) rd)) as Hm.
  pose proof (Rabs_bound _ _ (py_round_error (f_carry x) rd)) as Hb.
  pose proof (Rabs_bound _ _ (py_round_error (spread x c p) rd)) as Hd.
  unfold spread in *.
  replace (3 / 2 / powerRZ 10 rd) with (3 * (1 / 2 / powerRZ 10 rd)) by (field; lra).
  apply Rabs_le. lra.
Qed.

Lemma reported_spread_nearly_consistent_witness :
  validate_inputs example_inputs = Ok tt
  /\ example_inputs.(call) = Some 5.20
  /\ example_inputs.(put) = Some 4.80
  /\ exists rep m b d,
       run_ipv_check example_inputs 0.20 5.0 50.0 6 = Ok rep
       /\ rep.(market_implied_forward) = Some m
       /\ rep.(baseline_forward) = Some b
       /\ rep.(abs_spread) = Some d
       /\ Rabs (d - (m - b)) <= 3 / 2 / powerRZ 10 6.
Proof.
  split; [exact example_inputs_valid | split; [reflexivity | split; [reflexivity |]]].
  exact (reported_spread_nearly_consistent example_inputs 5.20 4.80 0.20 5.0 50.0 6
           example_inputs_valid eq_refl eq_refl).
Defined.

Ltac find_line :=
  match goal with
  | |- _ \/ _ => (left; find_line) || (right; find_line)
  | |- _ = _ => reflexivity
  end.

(** X18: the text of an evaluated report.  For a validated input with both
    prices the status line reads PASS or FAIL, and the spread line carries
    the complete tolerance clause, with [tol_abs], [tol_bps] and the
    effective tolerance to three decimals: the reduced clause and the
    [(N/A)] clause do not occur for a report the engine evaluated. *)
Theorem evaluated_report_text
    (fmt_fixed : R -> nat -> string) (str_float : R -> string)
    (x : EquityForwardIPVInputs) (c p ta tb tq : R) (rd : Z) (top_hints : Z) :
  validate_inputs x = Ok tt -> x.(call) = Some c -> x.(put) = Some p ->
  exists rep,
    run_ipv_check x ta tb tq rd = Ok rep
    /\ (In "STATUS            : PASS"%string
          (report_lines fmt_fixed str_float rep top_hints)
        \/ In "STATUS            : FAIL"%string
             (report_lines fmt_fixed str_float rep top_hints))
    /\ In ("ΔF (abs)          : "
             ++ fmt_fixed (py_round (f_parity x c p - f_carry x) rd) 3%nat
             ++ "   ("
             ++ ("tol_abs: " ++ str_float ta
                   ++ ", tol_bps: " ++ str_float tb
                   ++ ", tol_eff: "
                   ++ fmt_fixed (Rmax ta (Rabs tb * f_carry x / 10000)) 3%nat)
             ++ ")")%string
          (report_lines fmt_fixed str_float rep top_hints).
Proof.
  intros Hv Hc Hp.
  exists (evaluated_report x c p ta tb tq rd).
  split; [apply run_ipv_check_evaluated; assumption |].
  assert (Hin : forall l, In l (header_lines fmt_fixed str_float
                                  (evaluated_report x c p ta tb tq rd)) ->
                          In l (report_lines fmt_fixed str_float
                                  (evaluated_report x c p ta tb tq rd) top_hints)).
  { intros l Hl. unfold report_lines.
    destruct (list_truthy _).
    - unfold append at 1. apply in_or_app. left.
      assert (Hfold : forall (hs acc : list string), In l acc ->
                 In l (fold_left (fun lines h => append lines ("- " ++ h)%string) hs acc)).
      { induction hs as [| h hs IH]; intros acc Ha; simpl; [exact Ha |].
        apply IH. unfold append. apply in_or_app. left. exact Ha. }
      apply Hfold. unfold append. apply in_or_app. left. apply in_or_app. left. exact Hl.
    - unfold append. apply in_or_app. left. exact Hl. }
  split.
  - destruct (verdict x c p ta tb) eqn:Ev; [left | right]; apply Hin;
      unfold header_lines, append;
      cbn [evaluated_report status pass_rule net_carry_gap_bps];
      rewrite Ev;
      destruct (option_map _ (q_implied x c p));
      rewrite !in_app_iff; simpl; find_line.
  - apply Hin. unfold header_lines, append.
    cbn [evaluated_report tolerances tol_abs tol_bps tol_eff pass_rule abs_spread
         net_carry_gap_bps fmt_num].
    destruct (option_map _ (q_implied x c p));
      rewrite !in_app_iff; simpl; find_line.
Qed.

Lemma evaluated_report_text_witness :
  validate_inputs example_inputs = Ok tt
  /\ example_inputs.(call) = Some 5.20
  /\ example_inputs.(put) = Some 4.80
  /\ exists rep,
       run_ipv_check example_inputs 0.20 5.0 50.0 6 = Ok rep
       /\ (In "STATUS            : PASS"%string (report_lines fmt_stub str_stub rep 3)
           \/ In "STATUS            : FAIL"%string (report_lines fmt_stub str_stub rep 3)).
Proof.
  split; [exact example_inputs_valid | split; [reflexivity | split; [reflexivity |]]].
  destruct (evaluated_report_text fmt_stub str_stub example_inputs 5.20 4.80
              0.20 5.0 50.0 6 3 example_inputs_valid eq_refl eq_refl)
    as (rep & Hrun & Hst & _).
  exists rep. split; assumption.
Defined.
